(** * WebScraper: the scrape / normalise / deduplicate pipeline

    A shallow embedding of [comprehensive_scraper.js] (price parser, category
    classifier, discount calculator, page extractor, shop crawler and
    aggregator) together with the properties of the pipeline.

    Modelling conventions.
    - A JavaScript string is a [string]: a sequence of code units below 256
      (ASCII and Latin-1), which is where the regular expressions and keyword
      tests of the program discriminate.
    - A JavaScript number is the exact rational it denotes, a [Q].  The
      program only produces numbers by reading decimal literals, comparing
      them and taking one quotient; binary64 rounding is not modelled.
      [parseFloat] returns the literal in lowest decimal form (numerator over
      the least power of ten), so that equal prices are equal terms.
    - [null] / [undefined] is [None]; truthiness is spelled out at each test.
    - cheerio and axios are external: an element is the record of the strings
      the extractors read from it, a page maps a selector to the elements it
      matches, and a fetch either fails or yields a page. *)

From Stdlib Require Import QArith Qround ZArith NArith String Ascii List Lia Lqa.
From Stdlib Require Import DecimalString DecimalN Sorted Permutation.
From stdpp Require Import gmap strings.
Import ListNotations.

Open Scope string_scope.

(** ** Strings *)

Module JsString.

Definition code (c : ascii) : N := N_of_ascii c.

(** [\d] *)
Definition is_digit (c : ascii) : bool :=
  ((48 <=? code c) && (code c <=? 57))%N.

(** [\s], and the characters [String.prototype.trim] removes:
    TAB, LF, VT, FF, CR, SPACE and NBSP. *)
Definition is_space (c : ascii) : bool :=
  match code c with
  | 9 | 10 | 11 | 12 | 13 | 32 | 160 => true
  | _ => false
  end%N.

(** [toLowerCase] on one code unit: A-Z, and the Latin-1 capitals
    U+00C0..U+00DE except the multiplication sign U+00D7. *)
Definition lower_char (c : ascii) : ascii :=
  let n := code c in
  if (((65 <=? n) && (n <=? 90))
      || ((192 <=? n) && (n <=? 222) && negb (n =? 215)))%N
  then ascii_of_N (n + 32) else c.

Fixpoint toLowerCase (s : string) : string :=
  match s with
  | EmptyString => EmptyString
  | String c s' => String (lower_char c) (toLowerCase s')
  end.

(** Matching a pattern letter under the [i] flag (no [u] flag): a code
    unit outside ASCII never matches an ASCII letter. *)
Definition fold_ascii (c : ascii) : ascii :=
  let n := code c in
  if ((65 <=? n) && (n <=? 90))%N then ascii_of_N (n + 32) else c.

Definition matches_ci (p c : ascii) : bool :=
  Ascii.eqb (fold_ascii c) (fold_ascii p).

(** [s.includes(sub)] *)
Fixpoint includes (s sub : string) : bool :=
  String.prefix sub s ||
  match s with
  | EmptyString => false
  | String _ s' => includes s' sub
  end.

Fixpoint trimStart (s : string) : string :=
  match s with
  | EmptyString => EmptyString
  | String c s' => if is_space c then trimStart s' else s
  end.

Fixpoint trimEnd (s : string) : string :=
  match s with
  | EmptyString => EmptyString
  | String c s' =>
      match trimEnd s' with
      | EmptyString => if is_space c then EmptyString else String c EmptyString
      | t => String c t
      end
  end.

(** [s.trim()] *)
Definition trim (s : string) : string := trimEnd (trimStart s).

(** Truthiness of a string: non-empty. *)
Definition truthy (s : string) : bool :=
  match s with EmptyString => false | _ => true end.

(** [a || b] on strings. *)
Definition or_else (a b : string) : string := if truthy a then a else b.

(** The longest prefix of digits, and what follows it. *)
Fixpoint span_digits (s : string) : string * string :=
  match s with
  | EmptyString => (EmptyString, EmptyString)
  | String c s' =>
      if is_digit c
      then let (ds, rest) := span_digits s' in (String c ds, rest)
      else (EmptyString, s)
  end.

Fixpoint all_chars (P : ascii -> bool) (s : string) : bool :=
  match s with
  | EmptyString => true
  | String c s' => P c && all_chars P s'
  end.

Definition no_hyphen (s : string) : bool :=
  all_chars (fun c => negb (Ascii.eqb c "-")) s.

End JsString.
Import JsString.

(** ** Numbers *)

Module JsNumber.

(** [a < b] on numbers. *)
Definition Qlt_bool (a b : Q) : bool := negb (Qle_bool b a).

(** Truthiness of a number: not zero. *)
Definition truthy_num (q : Q) : bool := negb (Qeq_bool q 0).

(** Truthiness of a number-or-null. *)
Definition truthy_opt (p : option Q) : bool :=
  match p with Some q => truthy_num q | None => false end.

Definition digit_value (c : ascii) : N := (code c - 48)%N.

Fixpoint digits_value_from (acc : N) (s : string) : N :=
  match s with
  | EmptyString => acc
  | String c s' => digits_value_from (10 * acc + digit_value c)%N s'
  end.

(** The natural number written by a string of digits. *)
Definition digits_value (s : string) : N := digits_value_from 0 s.

(** Trailing zeros of a fraction do not change the number. *)
Fixpoint strip_trailing_zeros (s : string) : string :=
  match s with
  | EmptyString => EmptyString
  | String c s' =>
      match strip_trailing_zeros s' with
      | EmptyString => if Ascii.eqb c "0" then EmptyString else String c EmptyString
      | t => String c t
      end
  end.

Fixpoint pow10 (k : nat) : positive :=
  match k with
  | O => 1
  | S k' => 10 * pow10 k'
  end.

(** The number with integer digits [ds] and fraction digits [fs]:
    [ds.fs], over the least power of ten. *)
Definition decimal (ds fs : string) : Q :=
  let fs' := strip_trailing_zeros fs in
  Qmake (Z.of_N (digits_value (ds ++ fs'))) (pow10 (String.length fs')).

(** [parseFloat(m)] on a string that starts with a decimal literal
    (digits, then possibly a point and digits), which is what the price
    pattern hands to it. *)
Definition parseFloat (m : string) : Q :=
  let (ds, rest) := span_digits m in
  match rest with
  | String c r =>
      if Ascii.eqb c "." then decimal ds (fst (span_digits r))
      else decimal ds EmptyString
  | EmptyString => decimal ds EmptyString
  end.

Definition digit_char (x : Z) : ascii := ascii_of_N (48 + Z.to_N x).

(** Long division of [r / d], one decimal digit a step, until the
    remainder vanishes. *)
Fixpoint frac_digits (fuel : nat) (r d : Z) : string :=
  match fuel with
  | O => EmptyString
  | S fuel' =>
      if (r =? 0)%Z then EmptyString
      else String (digit_char (10 * r / d)) (frac_digits fuel' (10 * r mod d) d)
  end.

(** [${n}] for a non-negative integer. *)
Definition N_toString (n : N) : string :=
  NilZero.string_of_uint (N.to_uint n).

(** [${q}]: sign, integer part, and the fraction digits after a point
    when there are any.  The fuel covers every denominator that is a power
    of ten; exponent notation (used by JavaScript from 1e21 on and below
    1e-6) is outside the range of prices. *)
Definition Number_toString (q : Q) : string :=
  let n := Z.abs (Qnum q) in
  let d := Z.pos (Qden q) in
  let frac := frac_digits (Pos.size_nat (Qden q)) (n mod d) d in
  (if (Qnum q <? 0)%Z then "-" else "")
    ++ N_toString (Z.to_N (n / d))
    ++ (if truthy frac then "." ++ frac else "").

(** [Math.round]: the nearest integer, ties towards positive infinity. *)
Definition Math_round (q : Q) : Z := Qfloor (q + (1 # 2))%Q.

(** [${z}] for an integer. *)
Definition Z_toString (z : Z) : string :=
  ((if (z <? 0)%Z then "-" else "") ++ N_toString (Z.abs_N z)).

End JsNumber.
Import JsNumber.

(** ** Price parser *)

(** The pattern [/[Kk][Ss][Hh]\.?|,|Shs?\.?|\s/gi], one alternative at a
    time.  Each function gives the length of the match that starts at the
    head of [s], if there is one; the optional parts are greedy. *)

Definition dot_opt (s : string) : nat :=
  match s with
  | String c _ => if Ascii.eqb c "." then 1 else 0
  | EmptyString => 0
  end.

Definition match_ksh (s : string) : option nat :=
  match s with
  | String c1 (String c2 (String c3 rest)) =>
      if matches_ci "k" c1 && matches_ci "s" c2 && matches_ci "h" c3
      then Some (3 + dot_opt rest)%nat else None
  | _ => None
  end.

Definition match_comma (s : string) : option nat :=
  match s with
  | String c _ => if Ascii.eqb c "," then Some 1%nat else None
  | EmptyString => None
  end.

Definition match_shs (s : string) : option nat :=
  match s with
  | String c1 (String c2 rest) =>
      if matches_ci "s" c1 && matches_ci "h" c2
      then match rest with
           | String c3 rest' =>
               if matches_ci "s" c3 then Some (3 + dot_opt rest')%nat
               else Some (2 + dot_opt rest)%nat
           | EmptyString => Some 2%nat
           end
      else None
  | _ => None
  end.

Definition match_space (s : string) : option nat :=
  match s with
  | String c _ => if is_space c then Some 1%nat else None
  | EmptyString => None
  end.

Definition noise_match (s : string) : option nat :=
  match match_ksh s with
  | Some n => Some n
  | None =>
      match match_comma s with
      | Some n => Some n
      | None =>
          match match_shs s with
          | Some n => Some n
          | None => match_space s
          end
      end
  end.

(** [s.replace(pattern, '')] with the [g] flag: scan from the left, drop
    each match and resume after it.  [skip] counts the code units of the
    current match that are still to be dropped. *)
Fixpoint replace_noise (skip : nat) (s : string) : string :=
  match s with
  | EmptyString => EmptyString
  | String c s' =>
      match skip with
      | S k => replace_noise k s'
      | O =>
          match noise_match s with
          | Some (S k) => replace_noise k s'
          | _ => String c (replace_noise 0 s')
          end
      end
  end.

(** [s.match(/(\d+(?:\.\d+)?)/)]: the first run of digits, with a point and
    a second run of digits when they follow at once.  [None] when [s] has no
    digit. *)
Fixpoint match_number (s : string) : option string :=
  match s with
  | EmptyString => None
  | String c s' =>
      if is_digit c then
        let (ds, rest) := span_digits s in
        match rest with
        | String c' r =>
            let (fs, _) := span_digits r in
            if Ascii.eqb c' "." && truthy fs then Some (ds ++ "." ++ fs)
            else Some ds
        | EmptyString => Some ds
        end
      else match_number s'
  end.

(** [extractPrice(priceText)] *)
Definition extractPrice (priceText : string) : option Q :=
  if negb (truthy priceText) then None
  else
    let cleanedPrice := trim (replace_noise 0 priceText) in
    let price :=
      match match_number cleanedPrice with
      | Some m => Some (parseFloat m)
      | None => None
      end in
    if truthy_opt price && match price with
                           | Some p => Qlt_bool p 100
                           | None => false
                           end
    then None
    else price.

(** ** Category classifier *)

(** [determineCategory(name)] *)
Definition determineCategory (name : string) : option string :=
  if negb (truthy name) then None
  else
    let lowerName := toLowerCase name in
    if includes lowerName "phone" || includes lowerName "smartphone"
       || includes lowerName "iphone" || includes lowerName "android"
       || includes lowerName "tecno" || includes lowerName "infinix"
       || includes lowerName "samsung" || includes lowerName "xiaomi"
    then Some "phone"
    else if includes lowerName "laptop" || includes lowerName "notebook"
            || includes lowerName "macbook" || includes lowerName "computer"
            || includes lowerName "lenovo" || includes lowerName "hp "
            || includes lowerName "dell" || includes lowerName "asus"
    then Some "laptop"
    else None.

(** ** Discount calculator *)

(** [calculateDiscount(originalPrice, currentPrice)] *)
Definition calculateDiscount (originalPrice currentPrice : option Q) : string :=
  match originalPrice, currentPrice with
  | Some o, Some c =>
      if negb (truthy_num o) || negb (truthy_num c) || Qle_bool o c then ""
      else
        let discount := Math_round (((o - c) / o) * 100)%Q in
        Z_toString discount ++ "%"
  | _, _ => ""
  end.

(** ** Data model *)

Record Product := mkProduct {
  shop : string;
  name : string;
  category : option string;
  currentPrice : Q;
  originalPrice : Q;
  discount : string;
  url : string;
  imageUrl : string;
  timestamp : string
}.

(** What the extractors read from a cheerio element: the text of the
    descendants a selector finds, and attributes ([None] when [attr] gives
    [undefined]). *)
Record Element := mkElement {
  text_name : string;            (* find('.name').text() *)
  text_prc : string;             (* find('.prc').text() *)
  text_old : string;             (* find('.old').text() *)
  text_bdg_dsct : string;        (* find('.bdg._dsct').text() *)
  attr_a_href : option string;   (* find('a').attr('href') *)
  attr_img_data_src : option string; (* find('img').attr('data-src') *)
  attr_img_src : option string;  (* find('img').attr('src') *)
  text_title_name : string;      (* find('.title, .name').text() *)
  text_price_prc : string;       (* find('.price, .prc').text() *)
  text_first_heading : string;   (* find('h3, h4, .title, .name').first().text() *)
  text_first_price : string      (* find('.price, .prc, .cost').first().text() *)
}.

(** [$(selector)] on a loaded page. *)
Definition Page := string -> list Element.

(** The outcome of [axios.get] followed by [cheerio.load]. *)
Inductive Response :=
| Failure
| Loaded (page : Page).

Record Shop := mkShop {
  shop_name : string;
  baseUrl : string;
  flashSalesUrl : string;
  searchUrls : list string
}.

Record Artifact := mkArtifact {
  data_timestamp : string;
  totalItems : nat;
  items : list Product
}.

(** ** Configuration *)

Definition MAX_PRICE : Q := 10000.

Definition SHOPS : list Shop :=
  [ {| shop_name := "Jumia Kenya";
       baseUrl := "https://www.jumia.co.ke";
       flashSalesUrl := "https://www.jumia.co.ke/mlp-flash-sales/";
       searchUrls := [ "https://www.jumia.co.ke/laptops/";
                       "https://www.jumia.co.ke/smartphones/" ] |};
    {| shop_name := "Kilimall Kenya";
       baseUrl := "https://www.kilimall.co.ke";
       flashSalesUrl := "https://www.kilimall.co.ke/new-flash-sale.html";
       searchUrls :=
         [ "https://www.kilimall.co.ke/kilimall-flash-sale-laptop-c-10000007.html";
           "https://www.kilimall.co.ke/kilimall-flash-sale-phone-c-10000001.html" ] |} ].

Definition productSelectors : list string :=
  [ ".prd"; ".product-item"; ".item"; "[data-gtm-product]"; ".product" ].

(** ** Effects

    The program talks to the network and reads the clock.  A [World] fixes
    what each request and each clock reading returns; the [State] records
    the requests made so far, in order, and the number of clock readings. *)

Record World := mkWorld {
  http_get : string -> Response;
  date_now : nat -> string
}.

Record State := mkState {
  requested : list string;
  clock_reads : nat
}.

Definition M (A : Type) : Type := State -> A * State.

Definition ret {A} (a : A) : M A := fun s => (a, s).

Definition bind {A B} (m : M A) (f : A -> M B) : M B :=
  fun s => let (a, s') := m s in f a s'.

Notation "'let*' x ':=' m 'in' k" := (bind m (fun x => k))
  (at level 10, x name, m at level 100, k at level 200).

(** [new Date().toISOString()] *)
Definition new_Date (w : World) : M string :=
  fun s => (date_now w (clock_reads s),
            {| requested := requested s; clock_reads := S (clock_reads s) |}).

(** [await axios.get(url)] and [cheerio.load]: the request is recorded
    whether or not it succeeds. *)
Definition fetch (w : World) (url : string) : M Response :=
  fun s => (http_get w url,
            {| requested := requested s ++ [url]; clock_reads := clock_reads s |}).

Definition initial : State := {| requested := []; clock_reads := 0 |}.

(** ** Page extractor *)

(** [a || b || ''] on attribute values. *)
Definition attr_truthy (a : option string) : bool :=
  match a with Some v => truthy v | None => false end.

Definition attr_or_empty (a : option string) : string :=
  match a with Some v => v | None => "" end.

(** [extractJumiaProduct($element, shopName)].  No operation of the body
    throws in this model, so the [catch] branch is not represented. *)
Definition extractJumiaProduct (w : World) (e : Element) (shopName : string)
  : M (option Product) :=
  let name := or_else (trim (text_name e)) "Unknown Product" in
  let currentPriceText := trim (text_prc e) in
  let originalPriceText := trim (text_old e) in
  let currentPrice := extractPrice currentPriceText in
  let originalPrice :=
    if truthy_opt (extractPrice originalPriceText)
    then extractPrice originalPriceText else currentPrice in
  let discountText := trim (text_bdg_dsct e) in
  let discount := or_else discountText (calculateDiscount originalPrice currentPrice) in
  let relativeUrl := attr_a_href e in
  let url := if attr_truthy relativeUrl
             then "https://www.jumia.co.ke" ++ attr_or_empty relativeUrl else "" in
  let imageUrl :=
    if attr_truthy (attr_img_data_src e) then attr_or_empty (attr_img_data_src e)
    else if attr_truthy (attr_img_src e) then attr_or_empty (attr_img_src e)
    else "" in
  let category := determineCategory name in
  if negb (truthy name) || negb (truthy_opt currentPrice) then ret None
  else
    match currentPrice, originalPrice with
    | Some cp, Some op =>
        let* now := new_Date w in
        ret (Some {| shop := shopName; name := name; category := category;
                     currentPrice := cp; originalPrice := op;
                     discount := discount; url := url; imageUrl := imageUrl;
                     timestamp := now |})
    | _, _ => ret None
    end.

(** The record both fallback strategies build from a name and a price text. *)
Definition plain_product (w : World) (name priceText shopName : string)
  : M (option Product) :=
  let price := extractPrice priceText in
  let category := determineCategory name in
  if negb (truthy name) || negb (truthy_opt price) then ret None
  else
    match price with
    | Some p =>
        let* now := new_Date w in
        ret (Some {| shop := shopName; name := name; category := category;
                     currentPrice := p; originalPrice := p;
                     discount := ""; url := ""; imageUrl := "";
                     timestamp := now |})
    | None => ret None
    end.

(** [extractKilimallProduct($element, shopName)] *)
Definition extractKilimallProduct (w : World) (e : Element) (shopName : string)
  : M (option Product) :=
  let name := or_else (trim (text_title_name e)) "Unknown Product" in
  let priceText := trim (text_price_prc e) in
  plain_product w name priceText shopName.

(** [extractGenericProduct($element, shopName)] *)
Definition extractGenericProduct (w : World) (e : Element) (shopName : string)
  : M (option Product) :=
  let name := or_else (trim (text_first_heading e)) "Unknown Product" in
  let priceText := trim (text_first_price e) in
  plain_product w name priceText shopName.

(** [extractProductInfo($element, shopName, pageUrl)] *)
Definition extractProductInfo (w : World) (e : Element) (shopName : string)
  : M (option Product) :=
  if includes shopName "Jumia" then extractJumiaProduct w e shopName
  else if includes shopName "Kilimall" then extractKilimallProduct w e shopName
  else extractGenericProduct w e shopName.

(** The test a candidate passes before [products.push(product)]. *)
Definition accepted (product : option Product) : bool :=
  match product with
  | Some p =>
      truthy_num (currentPrice p) && Qle_bool (currentPrice p) MAX_PRICE
      && match category p with
         | Some c => String.eqb c "phone" || String.eqb c "laptop"
         | None => false
         end
  | None => false
  end.

(** [productElements.each(...)], accumulating into [products]. *)
Fixpoint each_element (w : World) (shopName : string) (elements : list Element)
    (products : list Product) : M (list Product) :=
  match elements with
  | [] => ret products
  | element :: rest =>
      let* product := extractProductInfo w element shopName in
      each_element w shopName rest
        (match product with
         | Some p => if accepted product then products ++ [p] else products
         | None => products
         end)
  end.

(** The first selector that matches at least one element. *)
Fixpoint first_matching (page : Page) (selectors : list string)
  : option (list Element) :=
  match selectors with
  | [] => None
  | selector :: rest =>
      match page selector with
      | [] => first_matching page rest
      | elements => Some elements
      end
  end.

(** [scrapePage(url, shopName)] *)
Definition scrapePage (w : World) (url shopName : string) : M (list Product) :=
  let* response := fetch w url in
  match response with
  | Failure => ret []
  | Loaded page =>
      match first_matching page productSelectors with
      | None => ret []
      | Some productElements => each_element w shopName productElements []
      end
  end.

(** ** Shop crawler *)

Fixpoint scrapePages (w : World) (shopName : string) (urls : list string)
    (products : list Product) : M (list Product) :=
  match urls with
  | [] => ret products
  | url :: rest =>
      let* pageProducts := scrapePage w url shopName in
      scrapePages w shopName rest (products ++ pageProducts)
  end.

(** [scrapeShop(shop)]: the flash-sale page, then each category page.
    [scrapePage] handles its own failures, so the outer [catch] is never
    entered. *)
Definition scrapeShop (w : World) (s : Shop) : M (list Product) :=
  let* flashSaleProducts := scrapePage w (flashSalesUrl s) (shop_name s) in
  scrapePages w (shop_name s) (searchUrls s) ([] ++ flashSaleProducts).

(** ** Aggregator *)

Definition dedupe_key (p : Product) : string :=
  name p ++ "-" ++ Number_toString (currentPrice p) ++ "-" ++ shop p.

(** The [filter] of [removeDuplicates], with the set [seen] threaded
    through. *)
Fixpoint removeDuplicates_seen (seen : gset string) (products : list Product)
  : list Product :=
  match products with
  | [] => []
  | product :: rest =>
      let key := dedupe_key product in
      if bool_decide (key ∈ seen) then removeDuplicates_seen seen rest
      else product :: removeDuplicates_seen ({[ key ]} ∪ seen) rest
  end.

(** [removeDuplicates(products)] *)
Definition removeDuplicates (products : list Product) : list Product :=
  removeDuplicates_seen ∅ products.

(** The comparator [(a, b) => a.currentPrice - b.currentPrice]. *)
Definition compare_price (a b : Product) : Q :=
  (currentPrice a - currentPrice b)%Q.

(** [Array.prototype.sort] is stable; with a consistent comparator its
    result is the one stable insertion produces. *)
Fixpoint sort_insert (cmp : Product -> Product -> Q) (x : Product)
    (sorted : list Product) : list Product :=
  match sorted with
  | [] => [x]
  | y :: rest =>
      if Qle_bool (cmp x y) 0 then x :: y :: rest
      else y :: sort_insert cmp x rest
  end.

Fixpoint sort (cmp : Product -> Product -> Q) (l : list Product) : list Product :=
  match l with
  | [] => []
  | x :: rest => sort_insert cmp x (sort cmp rest)
  end.

Fixpoint scrapeShops (w : World) (shops : list Shop) (allProducts : list Product)
  : M (list Product) :=
  match shops with
  | [] => ret allProducts
  | s :: rest =>
      let* products := scrapeShop w s in
      scrapeShops w rest (allProducts ++ products)
  end.

(** [saveResults(results)]: the data written to the output file. *)
Definition saveResults (w : World) (results : list Product) : M Artifact :=
  let* now := new_Date w in
  ret {| data_timestamp := now; totalItems := length results; items := results |}.

(** [main()], returning the artifact it saves. *)
Definition main (w : World) : M Artifact :=
  let* allProducts := scrapeShops w SHOPS [] in
  let allProducts := removeDuplicates allProducts in
  let allProducts := sort compare_price allProducts in
  saveResults w allProducts.

(** ** The specification's reading of the components

    These definitions follow the words of the specification; the theorems
    below compare them with the program. *)

(** The two keyword sets of the classifier, in the order they are tested. *)
Definition phone_keywords : list string :=
  [ "phone"; "smartphone"; "iphone"; "android";
    "tecno"; "infinix"; "samsung"; "xiaomi" ].

Definition laptop_keywords : list string :=
  [ "laptop"; "notebook"; "macbook"; "computer";
    "lenovo"; "hp "; "dell"; "asus" ].

(** Classification by keyword sets: phone keywords first, laptop keywords
    second, otherwise unclassified. *)
Definition classify (name : string) : option string :=
  let lowerName := toLowerCase name in
  if existsb (includes lowerName) phone_keywords then Some "phone"
  else if existsb (includes lowerName) laptop_keywords then Some "laptop"
  else None.


(** The original price and the discount badge a strategy scrapes: only the
    Jumia strategy reads them. *)
Definition scraped_original (e : Element) (shopName : string) : option Q :=
  if includes shopName "Jumia" then extractPrice (trim (text_old e)) else None.

Definition scraped_current (e : Element) (shopName : string) : option Q :=
  if includes shopName "Jumia" then extractPrice (trim (text_prc e))
  else if includes shopName "Kilimall" then extractPrice (trim (text_price_prc e))
  else extractPrice (trim (text_first_price e)).

Definition scraped_badge (e : Element) (shopName : string) : string :=
  if includes shopName "Jumia" then trim (text_bdg_dsct e) else "".

(** Sample inputs. *)

Definition sample_element (name prc old badge : string) : Element :=
  {| text_name := name; text_prc := prc; text_old := old;
     text_bdg_dsct := badge;
     attr_a_href := Some "/item.html";
     attr_img_data_src := None; attr_img_src := Some "item.jpg";
     text_title_name := name; text_price_prc := prc;
     text_first_heading := name; text_first_price := prc |}.

Definition sample_clock (n : nat) : string :=
  "2024-01-01T00:00:0" ++ N_toString (N.of_nat n) ++ ".000Z".

Definition offline : World :=
  {| http_get := fun _ => Failure; date_now := sample_clock |}.

(** A Jumia entry whose struck-out price is lower than its current price,
    and one with a discount badge but no struck-out price. *)
Definition lower_original : Element :=
  sample_element "Tecno Spark Phone" "KSh 8,000" "KSh 5,000" "".

Definition badge_only : Element :=
  sample_element "Tecno Spark Phone" "KSh 8,000" "" "-20%".

(** The records the strategies build from two of the samples. *)
Definition kilimall_record : Product :=
  {| shop := "Kilimall Kenya"; name := "Samsung A05";
     category := Some "phone";
     currentPrice := 8500; originalPrice := 8500;
     discount := ""; url := ""; imageUrl := "";
     timestamp := sample_clock 0 |}.

Definition jumia_record : Product :=
  {| shop := "Jumia Kenya"; name := "Tecno Spark Phone";
     category := Some "phone";
     currentPrice := 8000; originalPrice := 8000;
     discount := "-20%"; url := "https://www.jumia.co.ke/item.html";
     imageUrl := "item.jpg";
     timestamp := sample_clock 0 |}.

(** Retention, as the specification words it: a phone or a laptop, priced
    at most the ceiling. *)
Definition retained (p : Product) : Prop :=
  (category p = Some "phone" \/ category p = Some "laptop")
  /\ (currentPrice p <= 10000)%Q.

(** A record that some element of a page of [shopName] yields and that the
    page keeps. *)
Definition scraped_by (w : World) (shopName : string) (p : Product) : Prop :=
  accepted (Some p) = true
  /\ exists e s s', extractProductInfo w e shopName s = (Some p, s').

Definition shop_urls (s : Shop) : list string :=
  flashSalesUrl s :: searchUrls s.

(** A second entry for a product already listed: same name and price
    (written with a fraction), another link. *)
Definition relisted : Element :=
  {| text_name := "Tecno Spark Phone"; text_prc := "KSh 3,000.0";
     text_old := ""; text_bdg_dsct := "";
     attr_a_href := Some "/item-2.html";
     attr_img_data_src := None; attr_img_src := Some "item.jpg";
     text_title_name := "Tecno Spark Phone"; text_price_prc := "KSh 3,000.0";
     text_first_heading := "Tecno Spark Phone";
     text_first_price := "KSh 3,000.0" |}.

(** One page with a selector that matches [elements]. *)
Definition listing (elements : list Element) : Page :=
  fun selector => if String.eqb selector ".prd" then elements else [].

(** A world in which the Jumia flash-sale page cannot be fetched, the Jumia
    laptop page lists five entries and the Kilimall flash-sale page one. *)
Definition flaky : World :=
  {| http_get := fun u =>
       if String.eqb u "https://www.jumia.co.ke/mlp-flash-sales/" then Failure
       else if String.eqb u "https://www.jumia.co.ke/laptops/" then
         Loaded (listing
           [ sample_element "HP Laptop 15" "KSh 9,200" "KSh 12,000" "";
             sample_element "Tecno Spark Phone" "KSh 3,000" "" "";
             sample_element "Phone Case" "KSh 54" "" "";
             sample_element "HP Laptop" "KSh 15,000" "" "";
             relisted ])
       else if String.eqb u "https://www.kilimall.co.ke/new-flash-sale.html" then
         Loaded (listing [ sample_element " Samsung A05 " "KSh 8,500" "" "" ])
       else Loaded (listing []);
     date_now := sample_clock |}.

(** A record some configured shop's page yields and keeps. *)
Definition scraped_from (w : World) (shops : list Shop) (p : Product) : Prop :=
  exists sh, In sh shops /\ scraped_by w (shop_name sh) p.


(** The first configured shop. *)
Definition jumia_kenya : Shop :=
  {| shop_name := "Jumia Kenya";
     baseUrl := "https://www.jumia.co.ke";
     flashSalesUrl := "https://www.jumia.co.ke/mlp-flash-sales/";
     searchUrls := [ "https://www.jumia.co.ke/laptops/";
                     "https://www.jumia.co.ke/smartphones/" ] |}.

(** Ascending order of price. *)
Definition price_le (a b : Product) : Prop :=
  (currentPrice a <= currentPrice b)%Q.

(** The products [main] has collected when the crawl of all shops ends. *)
Definition collected (w : World) (s : State) : list Product :=
  fst (scrapeShops w SHOPS [] s).

(** Price texts: a token without digits, white space, digits with optional
    thousands separators, and possibly a point and fraction digits. *)
Definition digit_free (s : string) : bool :=
  all_chars (fun c => negb (is_digit c)) s.

Definition grouped_digits (s : string) : bool :=
  match s with
  | String c _ => is_digit c
  | EmptyString => false
  end && all_chars (fun c => is_digit c || Ascii.eqb c ",") s.

Fixpoint remove_separators (s : string) : string :=
  match s with
  | EmptyString => EmptyString
  | String c s' =>
      if Ascii.eqb c "," then remove_separators s'
      else String c (remove_separators s')
  end.

Definition fraction_text (fs : string) : string :=
  if truthy fs then "." ++ fs else "".

Definition price_text (token spaces body fs : string) : string :=
  token ++ spaces ++ body ++ fraction_text fs.

(** The head of what follows the token: nothing, a space or a digit. *)
Definition inert_head (s : string) : bool :=
  match s with
  | EmptyString => true
  | String c _ => is_digit c || is_space c
  end.

(** A number in lowest decimal form: a natural numerator over a power of
    ten that is as small as can be. *)
Definition decimal_number (q : Q) : Prop :=
  exists (m : N) (k : nat),
    q = Qmake (Z.of_N m) (pow10 k) /\ (k = 0%nat \/ (m mod 10 <> 0)%N).

(** The [k] digits of [r], leading zeros included. *)
Fixpoint fixed_digits (k : nat) (r : Z) : string :=
  match k with
  | O => EmptyString
  | S k' =>
      String (digit_char (r / Z.pos (pow10 k')))
             (fixed_digits k' (r mod Z.pos (pow10 k')))
  end.

(** The composite identity of a record: name, current price and shop. *)
Definition same_identity (a b : Product) : bool :=
  String.eqb (name a) (name b)
  && Qeq_bool (currentPrice a) (currentPrice b)
  && String.eqb (shop a) (shop b).

(** Deduplication as the specification words it: a record is kept when no
    record before it has the same identity.  [earlier] holds the records
    met so far. *)
Fixpoint first_occurrences (earlier l : list Product) : list Product :=
  match l with
  | [] => []
  | p :: rest =>
      if existsb (same_identity p) earlier
      then first_occurrences (p :: earlier) rest
      else p :: first_occurrences (p :: earlier) rest
  end.

Definition first_of_each_identity (l : list Product) : list Product :=
  first_occurrences [] l.

(** Records on which the key of [removeDuplicates] tells identities apart:
    no hyphen in the shop name, and a price in lowest decimal form. *)
Definition key_faithful (p : Product) : Prop :=
  no_hyphen (shop p) = true /\ decimal_number (currentPrice p).

(** ** HTML report *)

(** [s.replace(/c/g, by)] for a one-character pattern. *)
Fixpoint replace_each (c : ascii) (by_ : string) (s : string) : string :=
  match s with
  | EmptyString => EmptyString
  | String a s' =>
      if Ascii.eqb a c then by_ ++ replace_each c by_ s'
      else String a (replace_each c by_ s')
  end.

(** The string literals ['<'] and ['>'] of [generateHTMLReport]:
    one code unit each, 0x3C and 0x3E. *)
Definition u003c : string := String (ascii_of_N 60) EmptyString.
Definition u003e : string := String (ascii_of_N 62) EmptyString.

(** [escapedData] of [generateHTMLReport], from the text
    [JSON.stringify(data)]. *)
Definition escapedData (json : string) : string :=
  replace_each ">" u003e (replace_each "<" u003c json).

(** [parseInt(s)] without a radix: leading white space, a sign, the prefix
    [0x] or [0X] for base 16, then the longest run of digits of the base.
    [None] is [NaN]. *)
Definition hex_digit_value (c : ascii) : option N :=
  let n := code c in
  if ((48 <=? n) && (n <=? 57))%N then Some (n - 48)%N
  else if ((97 <=? n) && (n <=? 102))%N then Some (n - 87)%N
  else if ((65 <=? n) && (n <=? 70))%N then Some (n - 55)%N
  else None.

Definition radix_digit_value (radix : N) (c : ascii) : option N :=
  if (radix =? 16)%N then hex_digit_value c
  else if is_digit c then Some (digit_value c) else None.

(** The value of the longest run of digits of base [radix] at the head of
    [s], from the accumulator [acc]; [seen] tells whether a digit was
    read. *)
Fixpoint radix_digits (radix : N) (acc : N) (seen : bool) (s : string)
  : option N :=
  match s with
  | EmptyString => if seen then Some acc else None
  | String c s' =>
      match radix_digit_value radix c with
      | Some d => radix_digits radix (radix * acc + d)%N true s'
      | None => if seen then Some acc else None
      end
  end.

Definition parseInt (s : string) : option Z :=
  let s1 := trimStart s in
  let negative := String.prefix "-" s1 in
  let s2 := if String.prefix "-" s1 || String.prefix "+" s1
            then String.substring 1 (String.length s1 - 1) s1 else s1 in
  let hex := String.prefix "0x" s2 || String.prefix "0X" s2 in
  let s3 := if hex then String.substring 2 (String.length s2 - 2) s2 else s2 in
  match radix_digits (if hex then 16 else 10) 0 false s3 with
  | Some n => Some (if negative then - Z.of_N n else Z.of_N n)%Z
  | None => None
  end.

Record Stats := mkStats {
  laptopDeals : nat;
  phoneDeals : nat;
  avgDiscount : Z
}.

Definition has_category (c : string) (item : Product) : bool :=
  match category item with
  | Some c' => String.eqb c' c
  | None => false
  end.

(** The loop of [calculateStats] over the items: the pair of
    [totalDiscount] and [discountCount]. *)
Fixpoint discount_totals (items : list Product) (totalDiscount : Z)
    (discountCount : nat) : Z * nat :=
  match items with
  | [] => (totalDiscount, discountCount)
  | item :: rest =>
      if truthy (discount item) && negb (String.eqb (discount item) "")
      then match parseInt (discount item) with
           | Some discountValue =>
               discount_totals rest (totalDiscount + discountValue)%Z
                 (S discountCount)
           | None => discount_totals rest totalDiscount discountCount
           end
      else discount_totals rest totalDiscount discountCount
  end.

(** [calculateStats(items)] of the report's script. *)
Definition calculateStats (items : list Product) : Stats :=
  let laptopDeals := length (List.filter (has_category "laptop") items) in
  let phoneDeals := length (List.filter (has_category "phone") items) in
  let (totalDiscount, discountCount) := discount_totals items 0 0 in
  let avgDiscount :=
    if (0 <? discountCount)%nat
    then Math_round (inject_Z totalDiscount / inject_Z (Z.of_nat discountCount))%Q
    else 0%Z in
  {| laptopDeals := laptopDeals; phoneDeals := phoneDeals;
     avgDiscount := avgDiscount |}.

(** The digits of a text, in order. *)
Fixpoint keep_digits (s : string) : string :=
  match s with
  | EmptyString => EmptyString
  | String c s' =>
      if is_digit c then String c (keep_digits s') else keep_digits s'
  end.

(** A code unit that ends a number and that the noise pattern leaves in
    place: not a digit, a point, a comma or white space, and not the first
    letter of a currency spelling. *)
Definition boundary (c : ascii) : bool :=
  negb (is_digit c) && negb (Ascii.eqb c ".") && negb (Ascii.eqb c ",")
  && negb (is_space c) && negb (matches_ci "k" c) && negb (matches_ci "s" c).

(** Records of one price. *)
Definition priced (q : Q) (p : Product) : bool := Qeq_bool (currentPrice p) q.

(** Two records whose keys coincide though their identities differ: the
    hyphen of the key is taken for part of the shop name of one and of the
    product name of the other. *)
Definition case_in_store : Product :=
  {| shop := "24-Seven Store"; name := "Phone Case"; category := Some "phone";
     currentPrice := 1500; originalPrice := 1500;
     discount := ""; url := ""; imageUrl := ""; timestamp := sample_clock 0 |}.

Definition case_1500 : Product :=
  {| shop := "Seven Store"; name := "Phone Case-1500"; category := Some "phone";
     currentPrice := 24; originalPrice := 24;
     discount := ""; url := ""; imageUrl := ""; timestamp := sample_clock 1 |}.

(** What every record of the artifact satisfies besides retention. *)
Definition priced_above_floor (p : Product) : Prop :=
  (100 <= currentPrice p)%Q /\ (currentPrice p <= 10000)%Q
  /\ (100 <= originalPrice p)%Q.

Definition well_formed (p : Product) : Prop :=
  category p = determineCategory (name p)
  /\ name p <> "" /\ name p <> "Unknown Product"
  /\ In (shop p) (map shop_name SHOPS)
  /\ (url p = "" \/ String.prefix "https://www.jumia.co.ke" (url p) = true)
  /\ (shop p = "Kilimall Kenya" ->
      discount p = "" /\ url p = "" /\ imageUrl p = ""
      /\ originalPrice p = currentPrice p).

(** A record stamped with a clock reading from [lo] to just before [hi]. *)
Definition stamped (w : World) (lo hi : nat) (p : Product) : Prop :=
  exists i, (lo <= i < hi)%nat /\ timestamp p = date_now w i.

(** The item the Kilimall page of [flaky] contributes. *)
Definition flaky_kilimall_item : Product :=
  {| shop := "Kilimall Kenya"; name := "Samsung A05"; category := Some "phone";
     currentPrice := 8500; originalPrice := 8500;
     discount := ""; url := ""; imageUrl := ""; timestamp := sample_clock 4 |}.

(** The reduced laptop the Jumia page of [flaky] contributes. *)
Definition flaky_jumia_item : Product :=
  {| shop := "Jumia Kenya"; name := "HP Laptop 15"; category := Some "laptop";
     currentPrice := 9200; originalPrice := 12000;
     discount := "23%"; url := "https://www.jumia.co.ke/item.html";
     imageUrl := "item.jpg"; timestamp := sample_clock 0 |}.

(** * Properties *)

(** ** Price parser: the floor *)

(** C3.  The parser hands back the number 0 instead of rejecting it: the
    guard [price && price < 100] is skipped when [price] is 0. *)
Theorem extractPrice_zero_not_rejected :
  extractPrice "KSh 0" = Some 0%Q /\ extractPrice "0" = Some 0%Q.
Proof. split; reflexivity. Qed.

Lemma Qlt_bool_iff (a b : Q) : Qlt_bool a b = true <-> (a < b)%Q.
Proof.
  unfold Qlt_bool. rewrite negb_true_iff.
  split.
  - intros H. apply Qnot_le_lt. intros Hle. apply Qle_bool_iff in Hle. congruence.
  - intros H. destruct (Qle_bool b a) eqn:E; [|reflexivity].
    apply Qle_bool_iff in E. exfalso. exact (Qlt_not_le _ _ H E).
Qed.

Lemma truthy_num_iff (q : Q) : truthy_num q = true <-> ~ (q == 0)%Q.
Proof.
  unfold truthy_num. rewrite negb_true_iff.
  split.
  - intros H E. apply Qeq_bool_iff in E. congruence.
  - intros H. destruct (Qeq_bool q 0) eqn:E; [|reflexivity].
    apply Qeq_bool_iff in E. contradiction.
Qed.

(** Every number the parser returns is 0 or at least 100. *)
Lemma extractPrice_floor (s : string) (p : Q) :
  extractPrice s = Some p -> (p == 0)%Q \/ (100 <= p)%Q.
Proof.
  unfold extractPrice.
  destruct (negb (truthy s)); [discriminate|].
  destruct (match_number _) as [m|]; [|discriminate].
  cbn [truthy_opt].
  destruct (truthy_num (parseFloat m)) eqn:Ht; cbn [andb].
  - destruct (Qlt_bool (parseFloat m) 100) eqn:Hlt; [discriminate|].
    intros [= <-]. right.
    unfold Qlt_bool in Hlt. apply negb_false_iff in Hlt.
    now apply Qle_bool_iff.
  - intros [= <-]. left.
    unfold truthy_num in Ht. apply negb_false_iff in Ht.
    now apply Qeq_bool_iff.
Qed.

(** A truthy price is at least 100. *)
Lemma extractPrice_truthy (s : string) (p : Q) :
  extractPrice s = Some p -> truthy_num p = true -> (100 <= p)%Q.
Proof.
  intros H Ht. destruct (extractPrice_floor _ _ H) as [E|]; [|assumption].
  apply truthy_num_iff in Ht. contradiction.
Qed.

(** ** Category classifier *)

Lemma determineCategory_classify (name : string) :
  determineCategory name = classify name.
Proof.
  destruct name as [|c name]; [reflexivity|].
  unfold determineCategory, classify, phone_keywords, laptop_keywords.
  cbn [truthy negb existsb].
  rewrite !orb_false_r, !orb_assoc. reflexivity.
Qed.

Lemma existsb_In {A} (f : A -> bool) (l : list A) (x : A) :
  In x l -> f x = true -> existsb f l = true.
Proof. intros. apply existsb_exists. eauto. Qed.

(** C5.  The classifier answers phone, laptop or nothing on every name, and
    a name with a keyword of each set is a phone. *)
Theorem determineCategory_total_phone_first :
  (forall name,
      determineCategory name = Some "phone"
      \/ determineCategory name = Some "laptop"
      \/ determineCategory name = None)
  /\ (forall name pk lk,
        In pk phone_keywords -> In lk laptop_keywords ->
        includes (toLowerCase name) pk = true ->
        includes (toLowerCase name) lk = true ->
        determineCategory name = Some "phone")
  /\ determineCategory "Lenovo IdeaPhone" = Some "phone".
Proof.
  split; [|split; [|reflexivity]].
  - intros name. rewrite determineCategory_classify. unfold classify.
    destruct (existsb _ phone_keywords); [auto|].
    destruct (existsb _ laptop_keywords); auto.
  - intros name pk lk Hpk _ Hin _.
    rewrite determineCategory_classify. unfold classify.
    rewrite (existsb_In _ _ _ Hpk Hin). reflexivity.
Qed.

Lemma determineCategory_total_phone_first_witness :
  determineCategory "Phone for Lenovo" = Some "phone".
Proof.
  apply (proj1 (proj2 determineCategory_total_phone_first)
           "Phone for Lenovo" "phone" "lenovo").
  - simpl. auto.
  - simpl. auto 10.
  - reflexivity.
  - reflexivity.
Defined.

(** ** Discount calculator *)



Lemma calculateDiscount_empty (o c : Q) :
  (o == 0 \/ c == 0 \/ o <= c)%Q -> calculateDiscount (Some o) (Some c) = "".
Proof.
  intros H. unfold calculateDiscount.
  destruct (truthy_num o) eqn:Ho; [|reflexivity].
  destruct (truthy_num c) eqn:Hc; [|reflexivity].
  apply truthy_num_iff in Ho, Hc.
  destruct H as [H|[H|H]]; try contradiction.
  apply Qle_bool_iff in H. rewrite H. reflexivity.
Qed.



(** ** Extraction strategies *)

Ltac run_monad :=
  unfold bind, ret, new_Date in *; cbn beta iota in *.

Lemma plain_product_fields w nm priceText shopName s r s' :
  plain_product w nm priceText shopName s = (Some r, s') ->
  name r = nm /\ shop r = shopName
  /\ extractPrice priceText = Some (currentPrice r)
  /\ truthy_num (currentPrice r) = true
  /\ category r = determineCategory nm
  /\ originalPrice r = currentPrice r
  /\ discount r = "" /\ url r = "" /\ imageUrl r = "".
Proof.
  unfold plain_product.
  destruct (truthy nm); cbn [negb orb]; [|run_monad; discriminate].
  destruct (extractPrice priceText) as [p|] eqn:Hp; cbn [truthy_opt];
    [|run_monad; discriminate].
  destruct (truthy_num p) eqn:Ht; cbn [negb]; run_monad; [|discriminate].
  intros [= <- _]. cbn. auto 10.
Qed.

Lemma extractJumiaProduct_fields w e shopName s r s' :
  extractJumiaProduct w e shopName s = (Some r, s') ->
  let scraped := extractPrice (trim (text_old e)) in
  shop r = shopName
  /\ name r = or_else (trim (text_name e)) "Unknown Product"
  /\ category r = determineCategory (name r)
  /\ extractPrice (trim (text_prc e)) = Some (currentPrice r)
  /\ truthy_num (currentPrice r) = true
  /\ Some (originalPrice r)
     = (if truthy_opt scraped then scraped else Some (currentPrice r))
  /\ discount r
     = or_else (trim (text_bdg_dsct e))
         (calculateDiscount (Some (originalPrice r)) (Some (currentPrice r))).
Proof.
  unfold extractJumiaProduct.
  destruct (truthy (or_else _ _)); cbn [negb orb]; [|run_monad; discriminate].
  destruct (extractPrice (trim (text_prc e))) as [cp|] eqn:Hcp; cbn [truthy_opt];
    [|run_monad; discriminate].
  destruct (truthy_num cp) eqn:Ht; cbn [negb]; [|run_monad; discriminate].
  destruct (extractPrice (trim (text_old e))) as [op|] eqn:Hop; cbn [truthy_opt].
  - destruct (truthy_num op) eqn:Hto; run_monad; intros [= <- _]; cbn; auto 10.
  - run_monad. intros [= <- _]. cbn. auto 10.
Qed.

(** C10.  A record built for a shop whose name does not contain "Jumia"
    (by the Kilimall or the generic strategy) has an empty discount, url and
    imageUrl and its original price is its current price; so a record that
    differs in one of these comes from the Jumia strategy. *)
Theorem non_jumia_record_is_plain w e shopName s r s' :
  extractProductInfo w e shopName s = (Some r, s') ->
  (includes shopName "Jumia" = false ->
     discount r = "" /\ url r = "" /\ imageUrl r = ""
     /\ originalPrice r = currentPrice r)
  /\ (discount r <> "" \/ url r <> "" \/ imageUrl r <> ""
      \/ originalPrice r <> currentPrice r ->
      extractJumiaProduct w e shopName s = (Some r, s')).
Proof.
  unfold extractProductInfo. intros H.
  destruct (includes shopName "Jumia").
  - split; [discriminate|]. intros _. exact H.
  - assert (discount r = "" /\ url r = "" /\ imageUrl r = ""
            /\ originalPrice r = currentPrice r) as Hplain.
    { destruct (includes shopName "Kilimall");
        [unfold extractKilimallProduct in H|unfold extractGenericProduct in H];
        apply plain_product_fields in H; tauto. }
    split; [intros _; exact Hplain|].
    destruct Hplain as (Hd & Hu & Hi & Ho).
    intros [?|[?|[?|?]]]; contradiction.
Qed.

Lemma non_jumia_record_is_plain_witness :
  discount kilimall_record = "" /\ url kilimall_record = ""
  /\ imageUrl kilimall_record = ""
  /\ originalPrice kilimall_record = currentPrice kilimall_record.
Proof.
  apply (proj1 (non_jumia_record_is_plain offline
                  (sample_element "Samsung A05" "KSh 8,500" "KSh 9,000" "-5%")
                  "Kilimall Kenya" initial kilimall_record
                  {| requested := []; clock_reads := 1 |} eq_refl)).
  reflexivity.
Defined.

(** C1, counterexample.  The Jumia strategy keeps a scraped original price
    that is lower than the current price, and keeps a scraped badge when no
    original price was scraped. *)
Lemma original_price_below_current :
  (exists r s',
      extractProductInfo offline lower_original "Jumia Kenya" initial = (Some r, s')
      /\ scraped_original lower_original "Jumia Kenya" = Some 5000%Q
      /\ scraped_current lower_original "Jumia Kenya" = Some 8000%Q
      /\ (originalPrice r < currentPrice r)%Q
      /\ originalPrice r <> currentPrice r)
  /\ (exists r s',
      extractProductInfo offline badge_only "Jumia Kenya" initial = (Some r, s')
      /\ scraped_original badge_only "Jumia Kenya" = None
      /\ discount r <> "").
Proof.
  split.
  - eexists _, _. split; [reflexivity|].
    split; [reflexivity|]. split; [reflexivity|].
    split; [reflexivity|]. cbn. discriminate.
  - eexists _, _. split; [reflexivity|].
    split; [reflexivity|]. cbn. discriminate.
Qed.

Lemma or_else_empty (a : string) : or_else a "" = a.
Proof. destruct a; reflexivity. Qed.

(** C1, amended.  A record's current price is the parsed current price.
    When no original price is scraped (none, or one the parser does not
    turn into a non-zero number) the original price is the current price;
    a scraped original price is kept as it is, also when it is lower; and
    whenever the original price is not above the current price the discount
    is the scraped badge text, empty when there is no badge. *)
Theorem original_price_fallback w e shopName s r s' :
  extractProductInfo w e shopName s = (Some r, s') ->
  scraped_current e shopName = Some (currentPrice r)
  /\ (truthy_opt (scraped_original e shopName) = false ->
      originalPrice r = currentPrice r)
  /\ (forall o, scraped_original e shopName = Some o -> truthy_num o = true ->
      originalPrice r = o)
  /\ ((originalPrice r <= currentPrice r)%Q ->
      discount r = scraped_badge e shopName).
Proof.
  unfold extractProductInfo, scraped_current, scraped_original, scraped_badge.
  intros H. destruct (includes shopName "Jumia").
  - apply extractJumiaProduct_fields in H. cbv zeta in H.
    destruct H as (_ & _ & _ & Hc & _ & Ho & Hd).
    split; [exact Hc|]. split; [|split].
    + intros Hf. rewrite Hf in Ho. congruence.
    + intros o Hs Ht. rewrite Hs in Ho. cbn [truthy_opt] in Ho.
      rewrite Ht in Ho. congruence.
    + intros Hle. rewrite Hd, calculateDiscount_empty by auto.
      apply or_else_empty.
  - assert (extractPrice (trim (if includes shopName "Kilimall"
                                then text_price_prc e else text_first_price e))
            = Some (currentPrice r)
            /\ originalPrice r = currentPrice r /\ discount r = "") as (Hc & Ho & Hd).
    { destruct (includes shopName "Kilimall");
        [unfold extractKilimallProduct in H|unfold extractGenericProduct in H];
        apply plain_product_fields in H; tauto. }
    split; [destruct (includes shopName "Kilimall"); exact Hc|].
    split; [auto|]. split; [discriminate|auto].
Qed.

Lemma original_price_fallback_witness :
  originalPrice jumia_record = currentPrice jumia_record
  /\ discount jumia_record = "-20%".
Proof.
  pose proof (original_price_fallback offline badge_only "Jumia Kenya" initial
                jumia_record {| requested := []; clock_reads := 1 |} eq_refl)
    as (_ & Ho & _ & Hd).
  split.
  - apply Ho. reflexivity.
  - apply Hd. cbn. discriminate.
Defined.

(** ** Page extractor and shop crawler *)

Lemma new_Date_requested w s : requested (snd (new_Date w s)) = requested s.
Proof. reflexivity. Qed.

Lemma plain_product_requested w nm priceText shopName s :
  requested (snd (plain_product w nm priceText shopName s)) = requested s.
Proof.
  unfold plain_product.
  destruct (negb (truthy nm) || negb (truthy_opt (extractPrice priceText)));
    [reflexivity|].
  destruct (extractPrice priceText); reflexivity.
Qed.

Lemma extractProductInfo_requested w e shopName s :
  requested (snd (extractProductInfo w e shopName s)) = requested s.
Proof.
  unfold extractProductInfo.
  destruct (includes shopName "Jumia").
  - unfold extractJumiaProduct.
    destruct (negb _ || negb _); [reflexivity|].
    destruct (extractPrice (trim (text_prc e))); [|reflexivity].
    destruct (if truthy_opt _ then _ else _); reflexivity.
  - destruct (includes shopName "Kilimall"); apply plain_product_requested.
Qed.

Lemma each_element_spec w shopName elements : forall products s,
  exists new,
    fst (each_element w shopName elements products s) = (products ++ new)%list
    /\ Forall (scraped_by w shopName) new
    /\ requested (snd (each_element w shopName elements products s)) = requested s.
Proof.
  induction elements as [|e rest IH]; intros products s.
  - exists []. cbn. rewrite app_nil_r. auto.
  - cbn [each_element]. unfold bind.
    pose proof (extractProductInfo_requested w e shopName s) as Hreq.
    destruct (extractProductInfo w e shopName s) as [product s1] eqn:He.
    cbn [snd] in Hreq.
    destruct product as [p|].
    + destruct (accepted (Some p)) eqn:Ha.
      * destruct (IH (products ++ [p])%list s1) as (new & Hf & Hall & Hr).
        exists (p :: new). rewrite Hf, Hr, <- app_assoc. cbn.
        split; [reflexivity|]. split; [|assumption].
        constructor; [|assumption]. split; [assumption|]. eauto.
      * destruct (IH products s1) as (new & Hf & Hall & Hr).
        exists new. rewrite Hf, Hr. auto.
    + destruct (IH products s1) as (new & Hf & Hall & Hr).
      exists new. rewrite Hf, Hr. auto.
Qed.

Lemma scrapePage_failure w url shopName s :
  http_get w url = Failure ->
  scrapePage w url shopName s
  = ([], {| requested := (requested s ++ [url])%list; clock_reads := clock_reads s |}).
Proof. intros H. unfold scrapePage, bind, fetch. rewrite H. reflexivity. Qed.

Lemma scrapePage_spec w url shopName s :
  Forall (scraped_by w shopName) (fst (scrapePage w url shopName s))
  /\ requested (snd (scrapePage w url shopName s)) = (requested s ++ [url])%list.
Proof.
  unfold scrapePage, bind, fetch.
  destruct (http_get w url) as [|page]; [cbn; auto|].
  destruct (first_matching page productSelectors) as [els|]; [|cbn; auto].
  match goal with |- context [each_element ?w ?n ?l ?p ?s] =>
    destruct (each_element_spec w n l p s) as (new & Hf & Hall & Hr) end.
  rewrite Hf, Hr. auto.
Qed.

Lemma scrapePages_spec w shopName urls : forall products s,
  exists new,
    fst (scrapePages w shopName urls products s) = (products ++ new)%list
    /\ Forall (scraped_by w shopName) new
    /\ requested (snd (scrapePages w shopName urls products s))
       = (requested s ++ urls)%list.
Proof.
  induction urls as [|u rest IH]; intros products s.
  - exists []. cbn. rewrite !app_nil_r. auto.
  - cbn [scrapePages]. unfold bind.
    destruct (scrapePage_spec w u shopName s) as (Hall & Hreq).
    destruct (scrapePage w u shopName s) as [pageProducts s1].
    cbn [fst snd] in Hall, Hreq.
    destruct (IH (products ++ pageProducts)%list s1) as (new & Hf & Hall' & Hr).
    exists (pageProducts ++ new)%list. rewrite Hf, Hr, Hreq, <- !app_assoc.
    split; [reflexivity|]. split; [|reflexivity].
    apply Forall_app; auto.
Qed.

Lemma scrapeShop_spec w sh s :
  Forall (scraped_by w (shop_name sh)) (fst (scrapeShop w sh s))
  /\ requested (snd (scrapeShop w sh s)) = (requested s ++ shop_urls sh)%list.
Proof.
  unfold scrapeShop, bind, shop_urls.
  destruct (scrapePage_spec w (flashSalesUrl sh) (shop_name sh) s) as (Hall & Hreq).
  destruct (scrapePage w (flashSalesUrl sh) (shop_name sh) s) as [flash s1].
  cbn [fst snd] in Hall, Hreq.
  destruct (scrapePages_spec w (shop_name sh) (searchUrls sh) ([] ++ flash)%list s1)
    as (new & Hf & Hall' & Hr).
  split.
  - rewrite Hf. cbn [app]. apply Forall_app; auto.
  - rewrite Hr, Hreq, <- app_assoc. reflexivity.
Qed.

Lemma scrapeShops_spec w shops : forall allProducts s,
  exists new,
    fst (scrapeShops w shops allProducts s) = (allProducts ++ new)%list
    /\ Forall (scraped_from w shops) new
    /\ requested (snd (scrapeShops w shops allProducts s))
       = (requested s ++ flat_map shop_urls shops)%list.
Proof.
  induction shops as [|sh rest IH]; intros allProducts s.
  - exists []. cbn. rewrite !app_nil_r. auto.
  - cbn [scrapeShops]. unfold bind.
    destruct (scrapeShop_spec w sh s) as (Hall & Hreq).
    destruct (scrapeShop w sh s) as [products s1].
    cbn [fst snd] in Hall, Hreq.
    destruct (IH (allProducts ++ products)%list s1) as (new & Hf & Hall' & Hr).
    exists (products ++ new)%list. rewrite Hf, Hr, Hreq, <- !app_assoc.
    split; [reflexivity|]. split; [|reflexivity].
    apply Forall_app. split.
    + eapply Forall_impl; [exact Hall|].
      intros p Hp. exists sh. split; [left; reflexivity|exact Hp].
    + eapply Forall_impl; [exact Hall'|].
      intros p (sh' & Hin & Hp). exists sh'. split; [right; exact Hin|exact Hp].
Qed.

(** C8.  A page whose fetch fails yields no product and leaves the crawl
    going: every URL of the shop is requested, flash-sale page first; when
    the flash-sale fetch fails the shop's products are those of its
    category pages; and every URL of every configured shop is requested
    whatever the network does. *)
Theorem page_failure_is_contained w :
  (forall url shopName s,
      http_get w url = Failure ->
      scrapePage w url shopName s
      = ([], {| requested := (requested s ++ [url])%list;
                clock_reads := clock_reads s |}))
  /\ (forall sh s,
        requested (snd (scrapeShop w sh s)) = (requested s ++ shop_urls sh)%list)
  /\ (forall sh s,
        http_get w (flashSalesUrl sh) = Failure ->
        scrapeShop w sh s
        = scrapePages w (shop_name sh) (searchUrls sh) []
            {| requested := (requested s ++ [flashSalesUrl sh])%list;
               clock_reads := clock_reads s |})
  /\ (forall shops s,
        requested (snd (scrapeShops w shops [] s))
        = (requested s ++ flat_map shop_urls shops)%list).
Proof.
  split; [|split; [|split]].
  - apply scrapePage_failure.
  - intros sh s. apply scrapeShop_spec.
  - intros sh s H. unfold scrapeShop, bind.
    rewrite scrapePage_failure by exact H. reflexivity.
  - intros shops s.
    destruct (scrapeShops_spec w shops [] s) as (new & _ & _ & Hr). exact Hr.
Qed.

Lemma page_failure_is_contained_witness :
  http_get flaky (flashSalesUrl jumia_kenya) = Failure
  /\ map name (fst (scrapeShop flaky jumia_kenya initial))
     = [ "HP Laptop 15"; "Tecno Spark Phone"; "Tecno Spark Phone" ].
Proof.
  split; [reflexivity|].
  rewrite (proj1 (proj2 (proj2 (page_failure_is_contained flaky)))
             jumia_kenya initial eq_refl).
  reflexivity.
Defined.

(** ** Aggregator: retention and order *)

Lemma accepted_retained (p : Product) :
  accepted (Some p) = true -> retained p /\ truthy_num (currentPrice p) = true.
Proof.
  unfold accepted, retained.
  intros H. apply andb_prop in H as [H Hc]. apply andb_prop in H as [Ht Hle].
  apply Qle_bool_iff in Hle.
  split; [|exact Ht]. split; [|exact Hle].
  destruct (category p) as [c|]; [|discriminate].
  apply orb_prop in Hc as [Hc|Hc]; apply String.eqb_eq in Hc; subst; auto.
Qed.

Lemma scraped_from_retained w shops p : scraped_from w shops p -> retained p.
Proof. intros (sh & _ & Ha & _). now apply accepted_retained. Qed.

Lemma collected_scraped w s : Forall (scraped_from w SHOPS) (collected w s).
Proof.
  unfold collected.
  destruct (scrapeShops_spec w SHOPS [] s) as (new & Hf & Hall & _).
  rewrite Hf. exact Hall.
Qed.

Lemma removeDuplicates_seen_Forall (P : Product -> Prop) l : forall seen,
  Forall P l -> Forall P (removeDuplicates_seen seen l).
Proof.
  induction l as [|p l IH]; intros seen H; [constructor|].
  inversion H; subst. cbn [removeDuplicates_seen].
  destruct (bool_decide _); [auto|constructor; auto].
Qed.

Lemma sort_insert_Forall (P : Product -> Prop) cmp x l :
  Forall P (sort_insert cmp x l) <-> P x /\ Forall P l.
Proof.
  induction l as [|y l IH]; cbn [sort_insert].
  - split; [intros H; inversion H; auto|intros [? ?]; auto].
  - destruct (Qle_bool (cmp x y) 0).
    + split; [intros H; inversion H; auto|intros [? ?]; auto].
    + split.
      * intros H. inversion H as [|? ? Hy Hrest]; subst.
        apply IH in Hrest as [? ?]. auto.
      * intros [Hx H]. inversion H; subst. constructor; [assumption|].
        apply IH. auto.
Qed.

Lemma sort_Forall (P : Product -> Prop) cmp l :
  Forall P l -> Forall P (sort cmp l).
Proof.
  induction l as [|x l IH]; intros H; [constructor|].
  inversion H; subst. cbn [sort]. apply sort_insert_Forall. auto.
Qed.

Lemma sort_insert_Permutation cmp x l : Permutation (x :: l) (sort_insert cmp x l).
Proof.
  induction l as [|y l IH]; cbn [sort_insert]; [reflexivity|].
  destruct (Qle_bool (cmp x y) 0); [reflexivity|].
  rewrite perm_swap. now apply perm_skip.
Qed.

Lemma sort_Permutation cmp l : Permutation l (sort cmp l).
Proof.
  induction l as [|x l IH]; cbn [sort]; [reflexivity|].
  rewrite <- sort_insert_Permutation. now apply perm_skip.
Qed.

Lemma compare_price_le (x y : Product) :
  Qle_bool (compare_price x y) 0 = true <-> price_le x y.
Proof.
  unfold compare_price, price_le. rewrite Qle_bool_iff. split; intros; lra.
Qed.

Lemma sort_insert_sorted x l :
  StronglySorted price_le l -> StronglySorted price_le (sort_insert compare_price x l).
Proof.
  induction 1 as [|y l Hl IH Hy]; cbn [sort_insert].
  - repeat constructor.
  - destruct (Qle_bool (compare_price x y) 0) eqn:E.
    + apply compare_price_le in E.
      constructor; [constructor; assumption|].
      constructor; [assumption|].
      eapply Forall_impl; [exact Hy|].
      intros z Hz. unfold price_le in *. lra.
    + constructor; [assumption|].
      apply sort_insert_Forall. split; [|assumption].
      destruct (Qlt_le_dec (currentPrice y) (currentPrice x)) as [Hlt|Hle].
      * unfold price_le. lra.
      * apply compare_price_le in Hle. congruence.
Qed.

Lemma sort_sorted l : StronglySorted price_le (sort compare_price l).
Proof.
  induction l as [|x l IH]; cbn [sort]; [constructor|].
  now apply sort_insert_sorted.
Qed.

Lemma main_items w s :
  items (fst (main w s)) = sort compare_price (removeDuplicates (collected w s)).
Proof.
  unfold main, collected, bind, saveResults, new_Date, ret.
  destruct (scrapeShops w SHOPS [] s) as [allProducts s1]. reflexivity.
Qed.

(** C2.  Every item of the output artifact is a phone or a laptop priced at
    most 10000, the configured maximum. *)
Theorem artifact_items_retained w s :
  Forall retained (items (fst (main w s))) /\ (MAX_PRICE == 10000)%Q.
Proof.
  split; [|reflexivity].
  rewrite main_items. apply sort_Forall, removeDuplicates_seen_Forall.
  eapply Forall_impl; [apply collected_scraped|].
  intros p. apply scraped_from_retained.
Qed.

(** C9.  The items of the output artifact are the deduplicated products in
    ascending order of current price; accepted prices 9200, 3000, 8500 come
    out as 3000, 8500, 9200. *)
Theorem artifact_items_sorted :
  (forall w s,
      StronglySorted price_le (items (fst (main w s)))
      /\ Permutation (removeDuplicates (collected w s)) (items (fst (main w s))))
  /\ map currentPrice (removeDuplicates (collected flaky initial))
     = [ 9200; 3000; 8500 ]%Q
  /\ map currentPrice (items (fst (main flaky initial)))
     = [ 3000; 8500; 9200 ]%Q.
Proof.
  split; [|split; reflexivity].
  intros w s. rewrite main_items.
  split; [apply sort_sorted|apply sort_Permutation].
Qed.

(** ** Price parser: currency amounts *)

Lemma append_cons c (s r : string) : String c s ++ r = String c (s ++ r).
Proof. reflexivity. Qed.

Lemma append_nil (r : string) : "" ++ r = r.
Proof. reflexivity. Qed.

Ltac push_append := repeat (rewrite append_cons || rewrite append_nil).

Ltac char_cases c :=
  destruct c as [[] [] [] [] [] [] [] []]; try discriminate; try reflexivity.

(** What a digit, a point, a space and a comma are to the noise pattern. *)
Lemma digit_inert c :
  is_digit c = true ->
  matches_ci "k" c = false /\ matches_ci "s" c = false /\ matches_ci "h" c = false
  /\ Ascii.eqb c "," = false /\ Ascii.eqb c "." = false /\ is_space c = false.
Proof. char_cases c; intros _; repeat split. Qed.

Lemma space_inert c :
  is_space c = true ->
  matches_ci "k" c = false /\ matches_ci "s" c = false /\ matches_ci "h" c = false
  /\ Ascii.eqb c "," = false /\ Ascii.eqb c "." = false /\ is_digit c = false.
Proof. char_cases c; intros _; repeat split. Qed.

Lemma comma_inert c :
  Ascii.eqb c "," = true ->
  matches_ci "k" c = false /\ matches_ci "s" c = false /\ is_digit c = false
  /\ is_space c = false.
Proof. intros H. apply Ascii.eqb_eq in H. subst. repeat split. Qed.

Lemma point_inert c :
  Ascii.eqb c "." = true ->
  matches_ci "k" c = false /\ matches_ci "s" c = false /\ is_digit c = false
  /\ is_space c = false /\ Ascii.eqb c "," = false.
Proof. intros H. apply Ascii.eqb_eq in H. subst. repeat split. Qed.

Lemma noise_match_cons c s :
  matches_ci "k" c = false -> matches_ci "s" c = false ->
  noise_match (String c s)
  = if Ascii.eqb c "," then Some 1%nat
    else if is_space c then Some 1%nat else None.
Proof.
  intros Hk Hs. unfold noise_match, match_ksh, match_shs, match_comma, match_space.
  destruct s as [|c2 [|c3 s]]; rewrite ?Hk, ?Hs; cbn [andb];
    destruct (Ascii.eqb c ","); reflexivity.
Qed.

Lemma noise_match_kept c s :
  is_digit c || Ascii.eqb c "." = true -> noise_match (String c s) = None.
Proof.
  intros H. apply orb_prop in H as [H|H].
  - apply digit_inert in H as (Hk & Hs & _ & Hc & _ & Hsp).
    rewrite noise_match_cons, Hc, Hsp by assumption. reflexivity.
  - apply point_inert in H as (Hk & Hs & _ & Hsp & Hc).
    rewrite noise_match_cons, Hc, Hsp by assumption. reflexivity.
Qed.

Lemma noise_match_dropped c s :
  is_space c || Ascii.eqb c "," = true -> noise_match (String c s) = Some 1%nat.
Proof.
  intros H. apply orb_prop in H as [H|H].
  - pose proof H as Hsp. apply space_inert in H as (Hk & Hs & _ & Hc & _).
    rewrite noise_match_cons, Hc, Hsp by assumption. reflexivity.
  - pose proof H as Hc. apply comma_inert in H as (Hk & Hs & _).
    rewrite noise_match_cons, Hc by assumption. reflexivity.
Qed.

Lemma inert_head_facts c s :
  inert_head (String c s) = true ->
  matches_ci "s" c = false /\ matches_ci "h" c = false /\ Ascii.eqb c "." = false.
Proof.
  cbn. intros H. apply orb_prop in H as [H|H].
  - apply digit_inert in H. tauto.
  - apply space_inert in H. tauto.
Qed.

(** A match that starts inside the token ends inside it. *)
Lemma noise_match_within c t rest n :
  inert_head rest = true ->
  noise_match (String c t ++ rest) = Some n ->
  (n <= String.length (String c t))%nat.
Proof.
  intros Hrest.
  assert (forall r s, rest = String r s ->
            matches_ci "s" r = false /\ matches_ci "h" r = false
            /\ Ascii.eqb r "." = false) as Hr.
  { intros r s ->. now apply inert_head_facts in Hrest. }
  unfold noise_match, match_ksh, match_shs, match_comma, match_space, dot_opt.
  destruct t as [|c2 [|c3 [|c4 t]]]; cbn [String.length];
    (destruct rest as [|r rest];
     [|destruct (Hr r rest eq_refl) as (Hs & Hh & Hd)]);
    push_append;
    repeat match goal with
      | |- context [matches_ci ?p ?x] =>
          let E := fresh "E" in destruct (matches_ci p x) eqn:E; cbn [andb]
      | |- context [Ascii.eqb ?x ?y] =>
          let E := fresh "E" in destruct (Ascii.eqb x y) eqn:E
      | |- context [is_space ?x] =>
          let E := fresh "E" in destruct (is_space x) eqn:E
      | |- context [match ?s with EmptyString => _ | String _ _ => _ end] =>
          is_var s; destruct s
      end;
    try congruence; intros [= <-]; cbn; lia.
Qed.

Lemma replace_noise_no_space s : forall k,
  all_chars (fun c => negb (is_space c)) (replace_noise k s) = true.
Proof.
  induction s as [|c s IH]; intros k; [reflexivity|].
  cbn [replace_noise]. destruct k as [|k]; [|apply IH].
  destruct (is_space c) eqn:Hsp.
  - rewrite noise_match_dropped by (rewrite Hsp; reflexivity). apply IH.
  - destruct (noise_match (String c s)) as [[|n]|]; try apply IH;
      cbn [all_chars]; rewrite Hsp, IH; reflexivity.
Qed.

Lemma trimEnd_no_space s :
  all_chars (fun c => negb (is_space c)) s = true -> trimEnd s = s.
Proof.
  induction s as [|c s IH]; [reflexivity|].
  cbn [all_chars trimEnd]. intros H. apply andb_prop in H as [Hc Hs].
  rewrite (IH Hs). apply negb_true_iff in Hc. rewrite Hc.
  destruct s; reflexivity.
Qed.

Lemma trim_no_space s :
  all_chars (fun c => negb (is_space c)) s = true -> trim s = s.
Proof.
  intros H. unfold trim.
  assert (trimStart s = s) as ->.
  { destruct s as [|c s]; [reflexivity|].
    cbn [all_chars] in H. apply andb_prop in H as [Hc _].
    apply negb_true_iff in Hc. cbn [trimStart]. now rewrite Hc. }
  now apply trimEnd_no_space.
Qed.

Lemma replace_noise_token t : forall skip rest,
  inert_head rest = true -> (skip <= String.length t)%nat ->
  exists T,
    replace_noise skip (t ++ rest) = T ++ replace_noise 0 rest
    /\ (digit_free t = true -> digit_free T = true).
Proof.
  induction t as [|c t IH]; intros skip rest Hrest Hskip.
  - cbn [String.length] in Hskip. assert (skip = 0%nat) as -> by lia.
    exists "". auto.
  - rewrite append_cons. cbn [replace_noise String.length] in *.
    destruct skip as [|k].
    + destruct (noise_match (String c (t ++ rest))) as [[|n]|] eqn:E.
      * destruct (IH 0%nat rest Hrest ltac:(lia)) as (T & HT & Hd).
        exists (String c T). rewrite HT. split; [reflexivity|].
        unfold digit_free in *. cbn [all_chars]. intros H.
        apply andb_prop in H as [-> H]. now apply Hd.
      * apply (noise_match_within c t rest) in E; [|assumption].
        cbn [String.length] in E.
        destruct (IH n rest Hrest ltac:(lia)) as (T & HT & Hd).
        exists T. split; [assumption|].
        unfold digit_free in *. cbn [all_chars]. intros H.
        apply andb_prop in H as [_ H]. now apply Hd.
      * destruct (IH 0%nat rest Hrest ltac:(lia)) as (T & HT & Hd).
        exists (String c T). rewrite HT. split; [reflexivity|].
        unfold digit_free in *. cbn [all_chars]. intros H.
        apply andb_prop in H as [-> H]. now apply Hd.
    + destruct (IH k rest Hrest ltac:(lia)) as (T & HT & Hd).
      exists T. split; [assumption|].
      unfold digit_free in *. cbn [all_chars]. intros H.
      apply andb_prop in H as [_ H]. now apply Hd.
Qed.

Lemma replace_noise_spaces sp rest :
  all_chars is_space sp = true ->
  replace_noise 0 (sp ++ rest) = replace_noise 0 rest.
Proof.
  induction sp as [|c sp IH]; [reflexivity|].
  cbn [all_chars]. intros H. apply andb_prop in H as [Hc Hsp].
  rewrite append_cons. cbn [replace_noise].
  rewrite noise_match_dropped by (rewrite Hc; reflexivity). auto.
Qed.

Lemma replace_noise_body body tail :
  all_chars (fun c => is_digit c || Ascii.eqb c ",") body = true ->
  replace_noise 0 (body ++ tail) = remove_separators body ++ replace_noise 0 tail.
Proof.
  induction body as [|c body IH]; [reflexivity|].
  cbn [all_chars]. intros H. apply andb_prop in H as [Hc Hb].
  rewrite append_cons. cbn [replace_noise remove_separators].
  apply orb_prop in Hc as [Hc|Hc].
  - rewrite noise_match_kept by (rewrite Hc; reflexivity).
    apply digit_inert in Hc as (_ & _ & _ & -> & _). rewrite IH by assumption.
    reflexivity.
  - rewrite noise_match_dropped by (rewrite Hc; apply orb_true_r).
    rewrite Hc. auto.
Qed.

Lemma replace_noise_plain s :
  all_chars (fun c => is_digit c || Ascii.eqb c ".") s = true ->
  replace_noise 0 s = s.
Proof.
  induction s as [|c s IH]; [reflexivity|].
  cbn [all_chars]. intros H. apply andb_prop in H as [Hc Hs].
  cbn [replace_noise]. rewrite noise_match_kept by assumption.
  now rewrite IH.
Qed.

Lemma all_chars_impl (P Q : ascii -> bool) s :
  (forall c, P c = true -> Q c = true) ->
  all_chars P s = true -> all_chars Q s = true.
Proof.
  intros HPQ. induction s as [|c s IH]; [reflexivity|].
  cbn [all_chars]. intros H. apply andb_prop in H as [Hc Hs].
  now rewrite (HPQ c Hc), IH.
Qed.

Lemma all_chars_app P s t :
  all_chars P (s ++ t) = all_chars P s && all_chars P t.
Proof.
  induction s as [|c s IH]; [reflexivity|].
  rewrite append_cons. cbn [all_chars]. now rewrite IH, andb_assoc.
Qed.

Lemma fraction_text_plain fs :
  all_chars is_digit fs = true ->
  all_chars (fun c => is_digit c || Ascii.eqb c ".") (fraction_text fs) = true.
Proof.
  intros H. unfold fraction_text. destruct (truthy fs); [|reflexivity].
  rewrite append_cons, append_nil. cbn [all_chars].
  change (Ascii.eqb "." ".") with true. rewrite orb_true_r. cbn [andb].
  eapply all_chars_impl; [|exact H]. now intros c ->.
Qed.

Lemma remove_separators_digits body :
  all_chars (fun c => is_digit c || Ascii.eqb c ",") body = true ->
  all_chars is_digit (remove_separators body) = true.
Proof.
  induction body as [|c body IH]; [reflexivity|].
  cbn [all_chars remove_separators]. intros H. apply andb_prop in H as [Hc Hb].
  destruct (Ascii.eqb c ",") eqn:E; [auto|].
  rewrite orb_false_r in Hc. cbn [all_chars]. now rewrite Hc, IH.
Qed.

Lemma remove_separators_head body :
  grouped_digits body = true ->
  exists c ds, remove_separators body = String c ds /\ is_digit c = true.
Proof.
  unfold grouped_digits. destruct body as [|c body]; [discriminate|].
  intros H. apply andb_prop in H as [Hc _].
  cbn [remove_separators].
  apply digit_inert in Hc as Hi. destruct Hi as (_ & _ & _ & -> & _). eauto.
Qed.

Lemma fraction_text_head fs :
  match fraction_text fs with
  | EmptyString => True
  | String c _ => is_digit c = false
  end.
Proof.
  unfold fraction_text. destruct (truthy fs); [reflexivity|exact I].
Qed.

Lemma span_digits_app ds rest :
  all_chars is_digit ds = true ->
  match rest with
  | EmptyString => True
  | String c _ => is_digit c = false
  end ->
  span_digits (ds ++ rest) = (ds, rest).
Proof.
  intros Hds Hrest. induction ds as [|c ds IH].
  - rewrite append_nil. destruct rest as [|c rest]; [reflexivity|].
    cbn [span_digits]. now rewrite Hrest.
  - cbn [all_chars] in Hds. apply andb_prop in Hds as [Hc Hds].
    rewrite append_cons. cbn [span_digits]. now rewrite Hc, IH.
Qed.

Lemma append_empty_r (s : string) : s ++ "" = s.
Proof. induction s as [|c s IH]; [reflexivity|]. now rewrite append_cons, IH. Qed.

Lemma span_digits_all ds :
  all_chars is_digit ds = true -> span_digits ds = (ds, "").
Proof.
  intros H. rewrite <- (append_empty_r ds) at 1. now apply span_digits_app.
Qed.

Lemma match_number_skip T s :
  digit_free T = true -> match_number (T ++ s) = match_number s.
Proof.
  unfold digit_free. induction T as [|c T IH]; [reflexivity|].
  cbn [all_chars]. intros H. apply andb_prop in H as [Hc HT].
  apply negb_true_iff in Hc. rewrite append_cons. cbn [match_number].
  rewrite Hc. auto.
Qed.

Lemma match_number_literal c ds fs :
  all_chars is_digit (String c ds) = true -> all_chars is_digit fs = true ->
  match_number (String c ds ++ fraction_text fs)
  = Some (String c ds ++ fraction_text fs).
Proof.
  intros Hds Hfs.
  pose proof (span_digits_app (String c ds) (fraction_text fs) Hds
                (fraction_text_head fs)) as Hspan.
  cbn [all_chars] in Hds. apply andb_prop in Hds as [Hc _].
  rewrite append_cons in *. unfold match_number; fold match_number.
  rewrite Hc, Hspan.
  unfold fraction_text. destruct fs as [|f fs]; cbn [truthy].
  - rewrite append_empty_r. reflexivity.
  - rewrite append_cons, append_nil, (span_digits_all _ Hfs).
    reflexivity.
Qed.

Lemma parseFloat_literal ds fs :
  all_chars is_digit ds = true -> all_chars is_digit fs = true ->
  parseFloat (ds ++ fraction_text fs) = decimal ds fs.
Proof.
  intros Hds Hfs. unfold parseFloat.
  rewrite (span_digits_app ds (fraction_text fs) Hds (fraction_text_head fs)).
  unfold fraction_text. destruct fs as [|f fs]; cbn [truthy]; [reflexivity|].
  rewrite append_cons, append_nil, (span_digits_all _ Hfs). reflexivity.
Qed.

(** The text a price text is cleaned to, and the number read from it. *)
Lemma price_text_number token spaces body fs :
  digit_free token = true -> all_chars is_space spaces = true ->
  grouped_digits body = true -> all_chars is_digit fs = true ->
  match_number (trim (replace_noise 0 (price_text token spaces body fs)))
  = Some (remove_separators body ++ fraction_text fs).
Proof.
  intros Htok Hsp Hbody Hfs.
  rewrite trim_no_space by apply replace_noise_no_space.
  pose proof Hbody as Hg. unfold grouped_digits in Hg.
  apply andb_prop in Hg as [Hhead Hchars].
  unfold price_text.
  destruct (replace_noise_token token 0 (spaces ++ body ++ fraction_text fs))
    as (T & -> & HT); [|lia|].
  { destruct spaces as [|c sp].
    - rewrite append_nil. destruct body as [|c body]; [discriminate|].
      rewrite append_cons. cbn [inert_head]. now rewrite Hhead.
    - cbn [all_chars] in Hsp. apply andb_prop in Hsp as [Hc _].
      rewrite append_cons. cbn [inert_head]. rewrite Hc. apply orb_true_r. }
  rewrite match_number_skip by auto.
  rewrite replace_noise_spaces, replace_noise_body by assumption.
  rewrite replace_noise_plain by now apply fraction_text_plain.
  destruct (remove_separators_head body Hbody) as (c & ds & Hrs & Hc).
  pose proof (remove_separators_digits body Hchars) as Hdigits.
  rewrite Hrs in *. now apply match_number_literal.
Qed.

Lemma price_text_truthy token spaces body fs :
  grouped_digits body = true -> truthy (price_text token spaces body fs) = true.
Proof.
  unfold price_text, grouped_digits. intros H.
  destruct body as [|c body]; [discriminate|].
  destruct token; [|reflexivity]. destruct spaces; reflexivity.
Qed.

(** C7, counterexample.  "KSh 54" has the form, and the parser rejects it
    instead of returning 54. *)
Lemma extractPrice_rejects_small_amount :
  digit_free "KSh" = true /\ all_chars is_space " " = true
  /\ grouped_digits "54" = true /\ all_chars is_digit "" = true
  /\ price_text "KSh" " " "54" "" = "KSh 54"
  /\ decimal (remove_separators "54") "" = 54%Q
  /\ extractPrice (price_text "KSh" " " "54" "") = None.
Proof. repeat split. Qed.

(** C7, amended.  On a price text (a token without digits, spaces, digits
    with optional thousands separators, possibly a point and fraction
    digits) the parser returns the number the digits write when that number
    is at least 100, and rejects it when it is positive and below 100. *)
Theorem extractPrice_currency_amount :
  (forall token spaces body fs,
      digit_free token = true -> all_chars is_space spaces = true ->
      grouped_digits body = true -> all_chars is_digit fs = true ->
      let amount := decimal (remove_separators body) fs in
      ((100 <= amount)%Q ->
         extractPrice (price_text token spaces body fs) = Some amount)
      /\ ((0 < amount < 100)%Q ->
         extractPrice (price_text token spaces body fs) = None))
  /\ extractPrice "KSh 8,500" = Some 8500%Q
  /\ extractPrice "KES 9,999.50" = Some (99995 # 10)%Q.
Proof.
  split; [|split; reflexivity].
  intros token spaces body fs Htok Hsp Hbody Hfs amount.
  unfold extractPrice.
  rewrite price_text_truthy by assumption. cbn [negb].
  rewrite price_text_number by assumption.
  rewrite parseFloat_literal
    by (try assumption; apply remove_separators_digits;
        unfold grouped_digits in Hbody; now apply andb_prop in Hbody as [_ ?]).
  fold amount. cbn [truthy_opt].
  split; intros H.
  - assert (truthy_num amount = true) as -> by (apply truthy_num_iff; lra).
    assert (Qlt_bool amount 100 = false) as ->; [|reflexivity].
    destruct (Qlt_bool amount 100) eqn:E; [|reflexivity].
    apply Qlt_bool_iff in E. lra.
  - assert (truthy_num amount = true) as -> by (apply truthy_num_iff; lra).
    assert (Qlt_bool amount 100 = true) as -> by (apply Qlt_bool_iff; lra).
    reflexivity.
Qed.

Lemma extractPrice_currency_amount_witness :
  extractPrice (price_text "KSh" " " "8,500" "") = Some 8500%Q
  /\ extractPrice (price_text "KES" " " "9,999" "50") = Some (99995 # 10)%Q.
Proof.
  split.
  - apply (proj1 extractPrice_currency_amount "KSh" " " "8,500" "");
      try reflexivity.
    cbn. discriminate.
  - apply (proj1 extractPrice_currency_amount "KES" " " "9,999" "50");
      try reflexivity.
    cbn. discriminate.
Defined.

(** ** Printing numbers *)

Lemma string_of_uint_digits d :
  all_chars is_digit (NilEmpty.string_of_uint d) = true.
Proof. induction d; cbn; auto. Qed.

Lemma N_toString_digits n : all_chars is_digit (N_toString n) = true.
Proof.
  unfold N_toString, NilZero.string_of_uint.
  destruct (N.to_uint n); try reflexivity; apply string_of_uint_digits.
Qed.

Lemma N_to_uint_nonnil n : N.to_uint n <> Decimal.Nil.
Proof.
  destruct n as [|p]; [discriminate|]. apply DecimalPos.Unsigned.to_uint_nonnil.
Qed.

Lemma N_toString_inj n m : N_toString n = N_toString m -> n = m.
Proof.
  unfold N_toString. intros H.
  apply DecimalN.Unsigned.to_uint_inj.
  pose proof (NilZero.usu _ (N_to_uint_nonnil n)) as Hn.
  pose proof (NilZero.usu _ (N_to_uint_nonnil m)) as Hm.
  rewrite H in Hn. congruence.
Qed.

Lemma pow10_pos k : (0 < Z.pos (pow10 k))%Z.
Proof. reflexivity. Qed.

Lemma pow10_S k : Z.pos (pow10 (S k)) = (10 * Z.pos (pow10 k))%Z.
Proof. reflexivity. Qed.

Lemma pow10_size k : (k <= Pos.size_nat (pow10 k))%nat.
Proof.
  induction k as [|k IH]; [cbn; lia|].
  change (pow10 (S k)) with ((5 * pow10 k)~0)%positive.
  cbn [Pos.size_nat].
  assert (Pos.size_nat (pow10 k) <= Pos.size_nat (5 * pow10 k))%nat; [|lia].
  apply Pos.size_nat_monotone. lia.
Qed.

(** Long division does not depend on a common factor. *)
Lemma frac_digits_scale (c : Z) fuel : forall r d,
  (0 < c)%Z -> (0 < d)%Z ->
  frac_digits fuel (c * r) (c * d) = frac_digits fuel r d.
Proof.
  induction fuel as [|fuel IH]; intros r d Hc Hd; [reflexivity|].
  cbn [frac_digits].
  assert ((c * r =? 0) = (r =? 0))%Z as ->.
  { destruct (Z.eqb_spec r 0) as [->|Hr].
    - rewrite Z.mul_0_r. reflexivity.
    - apply Z.eqb_neq. nia. }
  destruct (r =? 0)%Z; [reflexivity|].
  replace (10 * (c * r))%Z with (c * (10 * r))%Z by ring.
  rewrite Z.div_mul_cancel_l, Z.mul_mod_distr_l by lia.
  now rewrite IH.
Qed.

(** On a numerator below a power of ten, long division writes the digits of
    the numerator. *)
Lemma frac_digits_fixed k : forall fuel r,
  (0 <= r < Z.pos (pow10 k))%Z -> (k <= fuel)%nat ->
  (k = 0%nat \/ r mod 10 <> 0)%Z ->
  frac_digits fuel r (Z.pos (pow10 k)) = fixed_digits k r.
Proof.
  induction k as [|k IH]; intros fuel r Hr Hfuel Hlast.
  - assert (r = 0%Z) as -> by (cbn in Hr; lia).
    destruct fuel; reflexivity.
  - destruct fuel as [|fuel]; [lia|].
    assert (r <> 0%Z) as Hnz.
    { intros ->. destruct Hlast as [?|Hlast]; [discriminate|]. now apply Hlast. }
    cbn [frac_digits fixed_digits].
    apply Z.eqb_neq in Hnz. rewrite Hnz.
    rewrite pow10_S.
    pose proof (pow10_pos k) as Hp.
    rewrite Z.div_mul_cancel_l, Z.mul_mod_distr_l by lia.
    rewrite frac_digits_scale by lia.
    f_equal. apply IH.
    + apply Z.mod_pos_bound. lia.
    + lia.
    + destruct k as [|k]; [left; reflexivity|right].
      rewrite pow10_S.
      rewrite Z.mod_mod_divide by (exists (Z.pos (pow10 k)); ring).
      destruct Hlast as [?|Hlast]; [discriminate|exact Hlast].
Qed.

Lemma fixed_digits_length k r : String.length (fixed_digits k r) = k.
Proof.
  revert r. induction k as [|k IH]; intros r; [reflexivity|].
  cbn [fixed_digits String.length]. now rewrite IH.
Qed.

Lemma digit_char_digit x : (0 <= x < 10)%Z -> is_digit (digit_char x) = true.
Proof.
  intros H.
  assert (x = 0 \/ x = 1 \/ x = 2 \/ x = 3 \/ x = 4
          \/ x = 5 \/ x = 6 \/ x = 7 \/ x = 8 \/ x = 9)%Z as Hx by lia.
  repeat (destruct Hx as [->|Hx]; [reflexivity|]). now subst.
Qed.

Lemma digit_char_inj x y :
  (0 <= x < 10)%Z -> (0 <= y < 10)%Z -> digit_char x = digit_char y -> x = y.
Proof.
  intros Hx Hy H.
  assert (N_of_ascii (digit_char x) = N_of_ascii (digit_char y)) as Hn
    by now rewrite H.
  unfold digit_char in Hn. rewrite !N_ascii_embedding in Hn by lia. lia.
Qed.

Lemma pow10_quotient k r :
  (0 <= r < Z.pos (pow10 (S k)))%Z -> (0 <= r / Z.pos (pow10 k) < 10)%Z.
Proof.
  intros Hr. rewrite pow10_S in Hr. pose proof (pow10_pos k) as Hp.
  split; [apply Z.div_pos; lia|].
  apply Z.div_lt_upper_bound; lia.
Qed.

Lemma fixed_digits_digits k : forall r,
  (0 <= r < Z.pos (pow10 k))%Z -> all_chars is_digit (fixed_digits k r) = true.
Proof.
  induction k as [|k IH]; intros r Hr; [reflexivity|].
  cbn [fixed_digits all_chars].
  rewrite digit_char_digit by now apply pow10_quotient.
  apply IH. apply Z.mod_pos_bound. apply pow10_pos.
Qed.

Lemma fixed_digits_inj k : forall r r',
  (0 <= r < Z.pos (pow10 k))%Z -> (0 <= r' < Z.pos (pow10 k))%Z ->
  fixed_digits k r = fixed_digits k r' -> r = r'.
Proof.
  induction k as [|k IH]; intros r r' Hr Hr' H.
  - cbn in Hr, Hr'. lia.
  - cbn [fixed_digits] in H. injection H as Hd Hrest.
    pose proof (pow10_pos k) as Hp.
    apply digit_char_inj in Hd; try now apply pow10_quotient.
    apply IH in Hrest; try (apply Z.mod_pos_bound; lia).
    rewrite (Z.div_mod r (Z.pos (pow10 k))), (Z.div_mod r' (Z.pos (pow10 k))) by lia.
    now rewrite Hd, Hrest.
Qed.

(** The text of a number in lowest decimal form. *)
Lemma Number_toString_decimal (m : N) (k : nat) :
  (k = 0%nat \/ (m mod 10 <> 0)%N) ->
  Number_toString (Qmake (Z.of_N m) (pow10 k))
  = N_toString (Z.to_N (Z.of_N m / Z.pos (pow10 k)))
      ++ fraction_text (fixed_digits k (Z.of_N m mod Z.pos (pow10 k))).
Proof.
  intros Hlast. unfold Number_toString. cbn [Qnum Qden].
  assert ((Z.of_N m <? 0)%Z = false) as -> by (apply Z.ltb_ge; lia).
  rewrite Z.abs_eq by lia. rewrite append_nil.
  rewrite frac_digits_fixed.
  - reflexivity.
  - apply Z.mod_pos_bound. apply pow10_pos.
  - apply pow10_size.
  - destruct k as [|k]; [left; reflexivity|right].
    destruct Hlast as [?|Hlast]; [discriminate|].
    rewrite pow10_S.
    rewrite Z.mod_mod_divide by (exists (Z.pos (pow10 k)); ring).
    intros H. apply Hlast.
    apply N2Z.inj. rewrite N2Z.inj_mod. exact H.
Qed.

Lemma digits_then_other_split X : forall X' Y Y',
  all_chars is_digit X = true -> all_chars is_digit X' = true ->
  match Y with EmptyString => True | String c _ => is_digit c = false end ->
  match Y' with EmptyString => True | String c _ => is_digit c = false end ->
  X ++ Y = X' ++ Y' -> X = X' /\ Y = Y'.
Proof.
  induction X as [|c X IH]; intros X' Y Y' HX HX' HY HY' H.
  - destruct X' as [|c' X']; [auto|].
    rewrite append_nil, append_cons in H. subst Y.
    cbn [all_chars] in HX'. apply andb_prop in HX' as [Hc _]. congruence.
  - destruct X' as [|c' X'].
    + rewrite append_nil, append_cons in H. subst Y'.
      cbn [all_chars] in HX. apply andb_prop in HX as [Hc _]. congruence.
    + rewrite !append_cons in H. injection H as -> H.
      cbn [all_chars] in HX, HX'.
      apply andb_prop in HX as [_ HX]. apply andb_prop in HX' as [_ HX'].
      destruct (IH X' Y Y' HX HX' HY HY' H) as [-> ->]. auto.
Qed.

Lemma fraction_text_inj F F' : fraction_text F = fraction_text F' -> F = F'.
Proof.
  unfold fraction_text. destruct F, F'; cbn [truthy]; try discriminate; auto.
  rewrite !append_cons, !append_nil. now intros [= -> ->].
Qed.

Lemma decimal_number_toString_inj q q' :
  decimal_number q -> decimal_number q' ->
  Number_toString q = Number_toString q' -> q = q'.
Proof.
  intros (m & k & -> & Hk) (m' & k' & -> & Hk').
  rewrite !Number_toString_decimal by assumption.
  pose proof (pow10_pos k) as Hp. pose proof (pow10_pos k') as Hp'.
  intros H. apply digits_then_other_split in H as [Hint Hfrac];
    try apply N_toString_digits; try apply fraction_text_head.
  apply fraction_text_inj in Hfrac. apply N_toString_inj in Hint.
  assert (k = k') as <-.
  { rewrite <- (fixed_digits_length k (Z.of_N m mod Z.pos (pow10 k))), Hfrac.
    apply fixed_digits_length. }
  apply fixed_digits_inj in Hfrac; try (apply Z.mod_pos_bound; lia).
  apply Z2N.inj in Hint; try (apply Z.div_pos; lia).
  assert (Z.of_N m = Z.of_N m') as Heq.
  { rewrite (Z.div_mod (Z.of_N m) (Z.pos (pow10 k))),
      (Z.div_mod (Z.of_N m') (Z.pos (pow10 k))) by lia.
    now rewrite Hint, Hfrac. }
  apply N2Z.inj in Heq. now subst.
Qed.

Lemma pow10_add a b : Z.pos (pow10 (a + b)) = (Z.pos (pow10 a) * Z.pos (pow10 b))%Z.
Proof.
  induction a as [|a IH]; [cbn [Nat.add pow10]; lia|].
  cbn [Nat.add]. rewrite !pow10_S, IH. ring.
Qed.

Lemma lowest_form_unique (m m' : N) (k j : nat) :
  (Z.of_N m * Z.pos (pow10 (k + S j)) = Z.of_N m' * Z.pos (pow10 k))%Z ->
  (m' mod 10 = 0)%N.
Proof.
  rewrite pow10_add, pow10_S.
  pose proof (pow10_pos k) as Hk. pose proof (pow10_pos j) as Hj.
  intros H.
  assert (Z.of_N m' = 10 * (Z.of_N m * Z.pos (pow10 j)))%Z as Hm by nia.
  apply N2Z.inj. rewrite N2Z.inj_mod, Hm.
  rewrite Z.mul_comm. apply Z.mod_mul. lia.
Qed.

(** Numbers in lowest decimal form are equal as soon as they are equal as
    rationals. *)
Lemma decimal_number_eq q q' :
  decimal_number q -> decimal_number q' -> (q == q')%Q -> q = q'.
Proof.
  intros (m & k & -> & Hk) (m' & k' & -> & Hk').
  unfold Qeq. cbn [Qnum Qden]. intros H.
  destruct (Nat.lt_trichotomy k k') as [Hlt|[<-|Hgt]].
  - exfalso. replace k' with (k + S (k' - k - 1))%nat in H by lia.
    apply lowest_form_unique in H.
    destruct Hk' as [->|Hk']; [lia|contradiction].
  - pose proof (pow10_pos k) as Hp.
    assert (Z.of_N m = Z.of_N m') as Heq by nia.
    apply N2Z.inj in Heq. now subst.
  - exfalso. replace k with (k' + S (k - k' - 1))%nat in H by lia.
    symmetry in H. apply lowest_form_unique in H.
    destruct Hk as [->|Hk]; [lia|contradiction].
Qed.

Lemma decimal_number_no_hyphen q :
  decimal_number q -> no_hyphen (Number_toString q) = true.
Proof.
  intros (m & k & -> & Hk). rewrite Number_toString_decimal by assumption.
  unfold no_hyphen. rewrite all_chars_app. apply andb_true_intro. split.
  - eapply all_chars_impl; [|apply N_toString_digits].
    intros c Hc. destruct (Ascii.eqb_spec c "-") as [->|]; [discriminate Hc|reflexivity].
  - eapply all_chars_impl; [|apply fraction_text_plain, fixed_digits_digits].
    + intros c Hc.
      destruct (Ascii.eqb_spec c "-") as [->|]; [discriminate Hc|reflexivity].
    + apply Z.mod_pos_bound. apply pow10_pos.
Qed.

(** ** What the parser returns is in lowest decimal form *)

Lemma digits_value_from_snoc s : forall acc c,
  digits_value_from acc (s ++ String c "")
  = (10 * digits_value_from acc s + digit_value c)%N.
Proof.
  induction s as [|c' s IH]; intros acc c; [reflexivity|].
  rewrite append_cons. cbn [digits_value_from]. apply IH.
Qed.

Lemma strip_trailing_zeros_shape fs :
  all_chars is_digit fs = true ->
  strip_trailing_zeros fs = ""
  \/ exists s c, strip_trailing_zeros fs = s ++ String c ""
                 /\ is_digit c = true /\ Ascii.eqb c "0" = false.
Proof.
  induction fs as [|c fs IH]; [auto|].
  cbn [all_chars strip_trailing_zeros]. intros H.
  apply andb_prop in H as [Hc Hfs].
  destruct (IH Hfs) as [->|(s & c' & -> & Hc' & Hz)].
  - destruct (Ascii.eqb c "0") eqn:E; [auto|].
    right. exists "", c. auto.
  - right. exists (String c s), c'.
    destruct (s ++ String c' "") eqn:E; [destruct s; discriminate|].
    rewrite <- E. auto.
Qed.

Lemma digit_value_nonzero c :
  is_digit c = true -> Ascii.eqb c "0" = false ->
  (0 < digit_value c < 10)%N.
Proof. char_cases c; intros _ _; cbv; auto. Qed.

Lemma append_length (s t : string) :
  String.length (s ++ t) = (String.length s + String.length t)%nat.
Proof.
  induction s as [|c s IH]; [reflexivity|].
  rewrite append_cons. cbn [String.length]. now rewrite IH.
Qed.

Lemma append_assoc (s t u : string) : (s ++ t) ++ u = s ++ t ++ u.
Proof.
  induction s as [|c s IH]; [reflexivity|].
  rewrite !append_cons. now rewrite IH.
Qed.

Lemma decimal_lowest_form ds fs :
  all_chars is_digit fs = true -> decimal_number (decimal ds fs).
Proof.
  intros Hfs. unfold decimal, decimal_number.
  exists (digits_value (ds ++ strip_trailing_zeros fs)),
    (String.length (strip_trailing_zeros fs)).
  split; [reflexivity|].
  destruct (strip_trailing_zeros_shape fs Hfs) as [->|(s & c & -> & Hc & Hz)];
    [left; reflexivity|right].
  unfold digits_value. rewrite <- append_assoc, digits_value_from_snoc.
  pose proof (digit_value_nonzero c Hc Hz) as Hd.
  rewrite N.add_comm, N.mul_comm, N.Div0.mod_add.
  rewrite N.mod_small; lia.
Qed.

Lemma span_digits_fst s : all_chars is_digit (fst (span_digits s)) = true.
Proof.
  induction s as [|c s IH]; [reflexivity|].
  cbn [span_digits]. destruct (is_digit c) eqn:E; [|reflexivity].
  destruct (span_digits s) as [ds rest]. cbn [fst all_chars] in *.
  now rewrite E, IH.
Qed.

Lemma match_number_shape s m :
  match_number s = Some m ->
  exists ds fs,
    all_chars is_digit ds = true /\ all_chars is_digit fs = true
    /\ m = ds ++ fraction_text fs.
Proof.
  induction s as [|c s IH]; [discriminate|].
  unfold match_number; fold match_number.
  destruct (is_digit c); [|exact IH].
  pose proof (span_digits_fst (String c s)) as Hds.
  destruct (span_digits (String c s)) as [ds rest]. cbn [fst] in Hds.
  destruct rest as [|c' r].
  - intros [= <-]. exists ds, "". rewrite append_empty_r. auto.
  - pose proof (span_digits_fst r) as Hfs.
    destruct (span_digits r) as [fs rest']. cbn [fst] in Hfs.
    destruct (Ascii.eqb c' "." && truthy fs) eqn:E.
    + intros [= <-]. apply andb_prop in E as [_ Ht].
      exists ds, fs. unfold fraction_text. rewrite Ht. auto.
    + intros [= <-]. exists ds, "". rewrite append_empty_r. auto.
Qed.

Lemma extractPrice_lowest_form s q :
  extractPrice s = Some q -> decimal_number q.
Proof.
  unfold extractPrice.
  destruct (negb (truthy s)); [discriminate|].
  destruct (match_number _) as [m|] eqn:Hm; [|discriminate].
  apply match_number_shape in Hm as (ds & fs & Hds & Hfs & ->).
  rewrite parseFloat_literal by assumption.
  destruct (_ && _); [discriminate|].
  intros [= <-]. now apply decimal_lowest_form.
Qed.

(** ** Aggregator: deduplication *)

Ltac push_append_in H := repeat (rewrite append_cons in H || rewrite append_nil in H).

Lemma hyphen_split a : forall a' b b',
  no_hyphen b = true -> no_hyphen b' = true ->
  a ++ "-" ++ b = a' ++ "-" ++ b' -> a = a' /\ b = b'.
Proof.
  unfold no_hyphen.
  induction a as [|c a IH]; intros a' b b' Hb Hb' H.
  - destruct a' as [|c' a']; push_append_in H.
    + injection H as ->. auto.
    + injection H as <- ->. rewrite all_chars_app in Hb.
      apply andb_prop in Hb as [_ Hb]. discriminate Hb.
  - destruct a' as [|c' a']; push_append_in H.
    + injection H as -> <-. rewrite all_chars_app in Hb'.
      apply andb_prop in Hb' as [_ Hb']. discriminate Hb'.
    + injection H as -> H.
      destruct (IH a' b b' Hb Hb' H) as [-> ->]. auto.
Qed.

Lemma no_hyphen_app s t :
  no_hyphen s = true -> no_hyphen t = true -> no_hyphen (s ++ t) = true.
Proof. unfold no_hyphen. intros Hs Ht. now rewrite all_chars_app, Hs, Ht. Qed.

(** On faithful records the key of [removeDuplicates] is the identity. *)
Lemma dedupe_key_identity p q :
  key_faithful p -> key_faithful q ->
  dedupe_key p = dedupe_key q <-> same_identity p q = true.
Proof.
  intros [Hsp Hdp] [Hsq Hdq]. unfold dedupe_key, same_identity. split.
  - assert (forall r, name r ++ "-" ++ Number_toString (currentPrice r) ++ "-" ++ shop r
                      = (name r ++ "-" ++ Number_toString (currentPrice r))
                          ++ "-" ++ shop r) as Hassoc
      by (intros r; now rewrite !append_assoc).
    rewrite !Hassoc. intros H.
    apply hyphen_split in H as [H ->]; [|assumption..].
    apply hyphen_split in H as [-> H]; try now apply decimal_number_no_hyphen.
    apply decimal_number_toString_inj in H as ->; [|assumption..].
    rewrite !String.eqb_refl. cbn [andb].
    rewrite andb_true_r. now apply Qeq_bool_iff.
  - intros H. apply andb_prop in H as [H Hs]. apply andb_prop in H as [Hn Hq].
    apply String.eqb_eq in Hn, Hs. apply Qeq_bool_iff in Hq.
    apply decimal_number_eq in Hq; [|assumption..]. congruence.
Qed.

Lemma removeDuplicates_seen_first_occurrences l : forall (seen : gset string) earlier,
  (forall key, key ∈ seen <-> exists q, In q earlier /\ dedupe_key q = key) ->
  Forall key_faithful earlier -> Forall key_faithful l ->
  removeDuplicates_seen seen l = first_occurrences earlier l.
Proof.
  induction l as [|p l IH]; intros seen earlier Hseen Hearlier Hl; [reflexivity|].
  inversion Hl as [|? ? Hp Hl']; subst.
  cbn [removeDuplicates_seen first_occurrences].
  assert (forall q, In q earlier -> key_faithful q) as Hfaithful.
  { rewrite Forall_forall in Hearlier. intros q Hin.
    now apply Hearlier, list_elem_of_In. }
  assert (bool_decide (dedupe_key p ∈ seen) = existsb (same_identity p) earlier) as ->.
  { apply eq_true_iff_eq. rewrite bool_decide_eq_true, Hseen, existsb_exists.
    split; intros (q & Hin & Hq); exists q; (split; [assumption|]).
    - apply (proj1 (dedupe_key_identity p q Hp (Hfaithful q Hin))). now symmetry.
    - symmetry. now apply (proj2 (dedupe_key_identity p q Hp (Hfaithful q Hin))). }
  destruct (existsb (same_identity p) earlier) eqn:E.
  - apply IH; [|now constructor|assumption].
    intros key. rewrite Hseen. split.
    + intros (q & Hin & Hq). exists q. split; [now right|assumption].
    + intros (q & [<-|Hin] & Hq); [|now exists q].
      apply existsb_exists in E as (q & Hin & Hq').
      exists q. split; [assumption|].
      rewrite <- Hq. symmetry.
      now apply (proj2 (dedupe_key_identity p q Hp (Hfaithful q Hin))).
  - f_equal. apply IH; [|now constructor|assumption].
    intros key. rewrite elem_of_union, elem_of_singleton, Hseen. split.
    + intros [->|(q & Hin & Hq)]; [exists p; split; [now left|reflexivity]|].
      exists q. split; [now right|assumption].
    + intros (q & [<-|Hin] & Hq); [now left|right; now exists q].
Qed.

Lemma removeDuplicates_first_occurrences l :
  Forall key_faithful l -> removeDuplicates l = first_of_each_identity l.
Proof.
  intros H. apply removeDuplicates_seen_first_occurrences; [|constructor|assumption].
  intros key. split; [set_solver|]. intros (q & [] & _).
Qed.

Lemma extractProductInfo_shop_price w e shopName s r s' :
  extractProductInfo w e shopName s = (Some r, s') ->
  shop r = shopName /\ exists text, extractPrice text = Some (currentPrice r).
Proof.
  unfold extractProductInfo. intros H.
  destruct (includes shopName "Jumia").
  - apply extractJumiaProduct_fields in H. cbv zeta in H.
    destruct H as (Hs & _ & _ & Hc & _). eauto.
  - destruct (includes shopName "Kilimall");
      [unfold extractKilimallProduct in H|unfold extractGenericProduct in H];
      apply plain_product_fields in H;
      destruct H as (_ & Hs & Hc & _); eauto.
Qed.

Lemma scraped_from_faithful w p : scraped_from w SHOPS p -> key_faithful p.
Proof.
  intros (sh & Hin & _ & e & s & s' & H).
  apply extractProductInfo_shop_price in H as (Hs & text & Hc).
  split.
  - rewrite Hs. cbn in Hin. destruct Hin as [<-|[<-|[]]]; reflexivity.
  - eapply extractPrice_lowest_form. exact Hc.
Qed.

(** C4.  On the products collected from the configured shops,
    [removeDuplicates] keeps a record exactly when no record before it has
    the same name, current price and shop; of two listings that agree on
    the three and differ in url, the first stays. *)
Theorem removeDuplicates_merges_by_identity :
  (forall w s,
      removeDuplicates (collected w s) = first_of_each_identity (collected w s))
  /\ map (fun p => (name p, currentPrice p, shop p, url p)) (collected flaky initial)
     = [ ("HP Laptop 15", 9200%Q, "Jumia Kenya", "https://www.jumia.co.ke/item.html");
         ("Tecno Spark Phone", 3000%Q, "Jumia Kenya", "https://www.jumia.co.ke/item.html");
         ("Tecno Spark Phone", 3000%Q, "Jumia Kenya", "https://www.jumia.co.ke/item-2.html");
         ("Samsung A05", 8500%Q, "Kilimall Kenya", "") ]
  /\ map (fun p => (name p, currentPrice p, shop p, url p))
       (removeDuplicates (collected flaky initial))
     = [ ("HP Laptop 15", 9200%Q, "Jumia Kenya", "https://www.jumia.co.ke/item.html");
         ("Tecno Spark Phone", 3000%Q, "Jumia Kenya", "https://www.jumia.co.ke/item.html");
         ("Samsung A05", 8500%Q, "Kilimall Kenya", "") ].
Proof.
  split; [|split; reflexivity].
  intros w s. apply removeDuplicates_first_occurrences.
  eapply Forall_impl; [apply collected_scraped|].
  intros p. apply scraped_from_faithful.
Qed.


(** * Further properties *)

(** ** HTML report: the escaping *)

Lemma replace_each_self c s : replace_each c (String c "") s = s.
Proof.
  induction s as [|a s IH]; [reflexivity|].
  cbn [replace_each]. destruct (Ascii.eqb_spec a c) as [->|_].
  - rewrite append_cons, append_nil. now rewrite IH.
  - now rewrite IH.
Qed.

(** X1.  The escaping of [generateHTMLReport] returns its input unchanged:
    the replacement strings are the characters they replace, so every "<"
    and ">" of the serialized data reaches the page as it is. *)
Theorem escapedData_unchanged :
  (forall json, escapedData json = json)
  /\ (forall json fragment,
        includes (escapedData json) fragment = includes json fragment).
Proof.
  assert (forall json, escapedData json = json) as H.
  { intros json. unfold escapedData, u003c, u003e.
    change (ascii_of_N 60) with "<"%char. change (ascii_of_N 62) with ">"%char.
    now rewrite !replace_each_self. }
  split; [exact H|]. intros json fragment. now rewrite H.
Qed.

(** ** Discount calculator: range *)

Lemma Z_toString_nonneg z : (0 <= z)%Z -> Z_toString z = N_toString (Z.to_N z).
Proof.
  intros H. unfold Z_toString.
  assert ((z <? 0)%Z = false) as -> by (apply Z.ltb_ge; lia).
  rewrite append_nil. f_equal. lia.
Qed.

(** X2.  On positive prices the calculator answers the empty string or a
    whole percentage between 0 and 100. *)
Theorem calculateDiscount_percentage (o c : Q) :
  (0 < o)%Q -> (0 < c)%Q ->
  calculateDiscount (Some o) (Some c) = ""
  \/ exists n : N,
       (n <= 100)%N /\ calculateDiscount (Some o) (Some c) = N_toString n ++ "%".
Proof.
  intros Ho Hc. unfold calculateDiscount.
  destruct (negb (truthy_num o) || negb (truthy_num c) || Qle_bool o c) eqn:E;
    [now left|right].
  apply orb_false_iff in E as [_ E].
  assert (c < o)%Q as Hlt.
  { apply Qnot_le_lt. intros H. apply Qle_bool_iff in H. congruence. }
  set (x := ((o - c) / o * 100)%Q).
  assert (0 <= x /\ x <= 100)%Q as [Hx0 Hx100].
  { unfold x. split.
    - apply Qmult_le_0_compat; [|lra].
      apply Qle_shift_div_l; [assumption|]. lra.
    - assert ((o - c) / o <= 1)%Q as H1
        by (apply Qle_shift_div_r; [assumption|]; lra).
      lra. }
  assert (0 <= Math_round x <= 100)%Z as Hr.
  { unfold Math_round. split.
    - change 0%Z with (Qfloor 0). apply Qfloor_resp_le. lra.
    - change 100%Z with (Qfloor (201 # 2)). apply Qfloor_resp_le. lra. }
  exists (Z.to_N (Math_round x)). split; [lia|].
  now rewrite Z_toString_nonneg by lia.
Qed.

Lemma calculateDiscount_percentage_witness :
  calculateDiscount (Some 12000%Q) (Some 8500%Q) = ""
  \/ exists n : N,
       (n <= 100)%N
       /\ calculateDiscount (Some 12000%Q) (Some 8500%Q) = N_toString n ++ "%".
Proof.
  apply (calculateDiscount_percentage 12000 8500); reflexivity.
Defined.

(** ** Category classifier: containment *)

Lemma prefix_append k : forall s b,
  String.prefix k s = true -> String.prefix k (s ++ b) = true.
Proof.
  induction k as [|a k IH]; intros s b H; [now destruct (s ++ b)|].
  destruct s as [|c s]; [discriminate|].
  rewrite append_cons. cbn [String.prefix] in *.
  destruct (Ascii.ascii_dec a c); [auto|discriminate].
Qed.

Lemma includes_empty s : includes s "" = true.
Proof. now destruct s. Qed.

Lemma includes_append_r s : forall k b,
  includes s k = true -> includes (s ++ b) k = true.
Proof.
  induction s as [|c s IH]; intros k b H.
  - cbn [includes] in H. rewrite orb_false_r in H.
    destruct k; [|discriminate]. apply includes_empty.
  - rewrite append_cons. cbn [includes] in *.
    apply orb_prop in H as [H|H]; apply orb_true_intro.
    + left. rewrite <- append_cons. now apply prefix_append.
    + right. now apply IH.
Qed.

Lemma includes_append_l a : forall s k,
  includes s k = true -> includes (a ++ s) k = true.
Proof.
  induction a as [|c a IH]; intros s k H; [assumption|].
  rewrite append_cons. cbn [includes]. rewrite (IH s k H). apply orb_true_r.
Qed.

Lemma prefix_split k : forall s,
  String.prefix k s = true -> exists b, s = k ++ b.
Proof.
  induction k as [|a k IH]; intros s H; [now exists s|].
  destruct s as [|c s]; [discriminate|]. cbn [String.prefix] in H.
  destruct (Ascii.ascii_dec a c) as [<-|]; [|discriminate].
  destruct (IH s H) as (b & ->). now exists b.
Qed.

Lemma includes_split s : forall k,
  includes s k = true -> exists a b, s = a ++ k ++ b.
Proof.
  induction s as [|c s IH]; intros k H; cbn [includes] in H.
  - rewrite orb_false_r in H. apply prefix_split in H as (b & H).
    exists "", b. exact H.
  - apply orb_prop in H as [H|H].
    + apply prefix_split in H as (b & H). exists "", b. exact H.
    + destruct (IH k H) as (a & b & ->). now exists (String c a), b.
Qed.

Lemma includes_trans s t k :
  includes s t = true -> includes t k = true -> includes s k = true.
Proof.
  intros Hst Htk. apply includes_split in Hst as (a & b & ->).
  now apply includes_append_l, includes_append_r.
Qed.

Lemma classify_phone name :
  classify name = Some "phone"
  <-> existsb (includes (toLowerCase name)) phone_keywords = true.
Proof.
  unfold classify. destruct (existsb _ phone_keywords); [tauto|].
  destruct (existsb _ laptop_keywords); split; discriminate.
Qed.

Lemma existsb_includes_trans s t (keywords : list string) :
  includes s t = true ->
  existsb (includes t) keywords = true -> existsb (includes s) keywords = true.
Proof.
  intros Hst H. apply existsb_exists in H as (k & Hin & Hk).
  apply existsb_exists. exists k. split; [assumption|].
  now apply (includes_trans s t k).
Qed.

(** X3.  Classification looks at the name up to letter case and survives
    added text: when the lower-cased name of one product contains that of
    another, a phone stays a phone, and a laptop stays a laptop or becomes a
    phone, never unclassified. *)
Theorem determineCategory_containment (small big : string) :
  includes (toLowerCase big) (toLowerCase small) = true ->
  (determineCategory small = Some "phone" -> determineCategory big = Some "phone")
  /\ (determineCategory small = Some "laptop" ->
      determineCategory big = Some "phone" \/ determineCategory big = Some "laptop").
Proof.
  intros Hin. rewrite !determineCategory_classify. split.
  - rewrite !classify_phone. now apply existsb_includes_trans.
  - unfold classify.
    destruct (existsb _ phone_keywords); [discriminate|].
    destruct (existsb (includes (toLowerCase small)) laptop_keywords) eqn:E;
      [|discriminate].
    intros _. rewrite (existsb_includes_trans _ _ _ Hin E).
    destruct (existsb _ phone_keywords); auto.
Qed.

Lemma determineCategory_containment_witness :
  determineCategory "New TECNO Spark 10 (Lenovo case)" = Some "phone"
  /\ (determineCategory "Case for LENOVO Ideapad" = Some "phone"
      \/ determineCategory "Case for LENOVO Ideapad" = Some "laptop").
Proof.
  split.
  - apply (proj1 (determineCategory_containment "Tecno Spark"
                    "New TECNO Spark 10 (Lenovo case)" eq_refl)).
    reflexivity.
  - apply (proj2 (determineCategory_containment "Lenovo"
                    "Case for LENOVO Ideapad" eq_refl)).
    reflexivity.
Defined.

(** ** Price parser: what it rejects and what it reads *)

Lemma replace_noise_all_chars P s : forall k,
  all_chars P s = true -> all_chars P (replace_noise k s) = true.
Proof.
  induction s as [|c s IH]; intros k H; [reflexivity|].
  cbn [all_chars] in H. apply andb_prop in H as [Hc Hs].
  cbn [replace_noise]. destruct k as [|k]; [|auto].
  destruct (noise_match (String c s)) as [[|n]|]; auto;
    cbn [all_chars]; now rewrite Hc, IH.
Qed.

Lemma trimStart_all_chars P s :
  all_chars P s = true -> all_chars P (trimStart s) = true.
Proof.
  induction s as [|c s IH]; [reflexivity|].
  intros H. cbn [trimStart]. destruct (is_space c); [|assumption].
  cbn [all_chars] in H. apply andb_prop in H as [_ Hs]. auto.
Qed.

Lemma trimEnd_all_chars P s :
  all_chars P s = true -> all_chars P (trimEnd s) = true.
Proof.
  induction s as [|c s IH]; [reflexivity|].
  cbn [all_chars trimEnd]. intros H. apply andb_prop in H as [Hc Hs].
  specialize (IH Hs). destruct (trimEnd s) as [|c' t].
  - destruct (is_space c); [reflexivity|]. cbn [all_chars]. now rewrite Hc.
  - cbn [all_chars] in *. now rewrite Hc, IH.
Qed.

Lemma match_number_digit_free s : digit_free s = true -> match_number s = None.
Proof.
  unfold digit_free. induction s as [|c s IH]; [reflexivity|].
  cbn [all_chars]. intros H. apply andb_prop in H as [Hc Hs].
  apply negb_true_iff in Hc. cbn [match_number]. rewrite Hc. auto.
Qed.

(** X4.  A text without a digit (the empty text and white space among
    them) is rejected. *)
Theorem extractPrice_without_digit (s : string) :
  digit_free s = true -> extractPrice s = None.
Proof.
  intros H. unfold extractPrice.
  destruct (negb (truthy s)); [reflexivity|].
  rewrite match_number_digit_free; [reflexivity|].
  unfold digit_free, trim.
  now apply trimEnd_all_chars, trimStart_all_chars, replace_noise_all_chars.
Qed.

Lemma extractPrice_without_digit_witness :
  extractPrice "  KSh. - " = None /\ extractPrice "" = None.
Proof.
  split; apply extractPrice_without_digit; reflexivity.
Defined.

(** X5.  A number the parser returns is 0 or at least 100, and it is in
    lowest decimal form, a natural numerator over a power of ten: the
    parser never returns a negative number or one strictly between 0 and
    100. *)
Theorem extractPrice_range (s : string) (p : Q) :
  extractPrice s = Some p ->
  ((p == 0)%Q \/ (100 <= p)%Q) /\ (0 <= p)%Q /\ decimal_number p.
Proof.
  intros H. split; [now apply (extractPrice_floor s)|].
  pose proof (extractPrice_lowest_form s p H) as Hd.
  split; [|exact Hd].
  destruct Hd as (m & k & -> & _). unfold Qle. cbn [Qnum Qden]. lia.
Qed.

Lemma extractPrice_range_witness :
  ((8500 == 0)%Q \/ (100 <= 8500)%Q) /\ (0 <= 8500)%Q /\ decimal_number 8500.
Proof.
  apply (extractPrice_range "KSh 8,500" 8500). reflexivity.
Defined.

Lemma replace_noise_keep_digits s :
  all_chars (fun c => is_digit c || Ascii.eqb c "," || is_space c) s = true ->
  replace_noise 0 s = keep_digits s.
Proof.
  induction s as [|c s IH]; [reflexivity|].
  cbn [all_chars]. intros H. apply andb_prop in H as [Hc Hs].
  cbn [replace_noise keep_digits].
  destruct (is_digit c) eqn:Hd.
  - rewrite noise_match_kept by (rewrite Hd; reflexivity). now rewrite IH.
  - cbn [orb] in Hc. rewrite noise_match_dropped; [auto|].
    now rewrite orb_comm.
Qed.

Lemma keep_digits_digits s : all_chars is_digit (keep_digits s) = true.
Proof.
  induction s as [|c s IH]; [reflexivity|].
  cbn [keep_digits]. destruct (is_digit c) eqn:E; [|assumption].
  cbn [all_chars]. now rewrite E, IH.
Qed.

Lemma digits_no_space s :
  all_chars is_digit s = true ->
  all_chars (fun c => negb (is_space c)) s = true.
Proof.
  apply all_chars_impl. intros c Hc.
  apply digit_inert in Hc as (_ & _ & _ & _ & _ & ->). reflexivity.
Qed.

(** X6.  In a text made of digits, commas and white space only, all the
    digits are read as one number: a space works as a thousands separator,
    and two numbers that only white space or commas separate are read as
    one. *)
Theorem extractPrice_digit_groups (s : string) :
  all_chars (fun c => is_digit c || Ascii.eqb c "," || is_space c) s = true ->
  (100 <= decimal (keep_digits s) "")%Q ->
  extractPrice s = Some (decimal (keep_digits s) "").
Proof.
  intros Hs Hv.
  pose proof (keep_digits_digits s) as Hd.
  unfold extractPrice. rewrite replace_noise_keep_digits by assumption.
  rewrite trim_no_space by now apply digits_no_space.
  destruct (keep_digits s) as [|c ds] eqn:E.
  { exfalso. vm_compute in Hv. now apply Hv. }
  assert (truthy s = true) as -> by (destruct s; [discriminate E|reflexivity]).
  cbn [negb].
  pose proof (match_number_literal c ds "" Hd eq_refl) as Hm.
  pose proof (parseFloat_literal (String c ds) "" Hd eq_refl) as Hp.
  unfold fraction_text in Hm, Hp. cbn [truthy] in Hm, Hp.
  rewrite append_empty_r in Hm, Hp. rewrite Hm, Hp.
  cbn [truthy_opt].
  assert (truthy_num (decimal (String c ds) "") = true) as ->
    by (apply truthy_num_iff; lra).
  assert (Qlt_bool (decimal (String c ds) "") 100 = false) as ->; [|reflexivity].
  destruct (Qlt_bool _ 100) eqn:F; [|reflexivity].
  apply Qlt_bool_iff in F. lra.
Qed.

Lemma extractPrice_digit_groups_witness :
  extractPrice "8 500" = Some 8500%Q
  /\ extractPrice "1,200 3,000" = Some 12003000%Q.
Proof.
  split.
  - apply (extractPrice_digit_groups "8 500"); [reflexivity|].
    cbn. discriminate.
  - apply (extractPrice_digit_groups "1,200 3,000"); [reflexivity|].
    cbn. discriminate.
Defined.

Lemma replace_noise_plain_app p tail :
  all_chars (fun c => is_digit c || Ascii.eqb c ".") p = true ->
  replace_noise 0 (p ++ tail) = p ++ replace_noise 0 tail.
Proof.
  induction p as [|c p IH]; [reflexivity|].
  cbn [all_chars]. intros H. apply andb_prop in H as [Hc Hp].
  rewrite !append_cons. cbn [replace_noise].
  rewrite noise_match_kept by assumption. now rewrite IH.
Qed.

Lemma boundary_facts c :
  boundary c = true ->
  is_digit c = false /\ Ascii.eqb c "." = false /\ Ascii.eqb c "," = false
  /\ is_space c = false /\ matches_ci "k" c = false /\ matches_ci "s" c = false.
Proof.
  unfold boundary. intros H.
  repeat (apply andb_prop in H as [H ?]).
  repeat match goal with
         | H : negb _ = true |- _ => apply negb_true_iff in H
         end.
  auto 10.
Qed.

Lemma replace_noise_boundary c rest :
  boundary c = true ->
  replace_noise 0 (String c rest) = String c (replace_noise 0 rest).
Proof.
  intros H. apply boundary_facts in H as (_ & _ & Hc & Hsp & Hk & Hs).
  cbn [replace_noise]. rewrite noise_match_cons, Hc, Hsp by assumption.
  reflexivity.
Qed.

Lemma match_number_literal_then c ds fs b rest :
  all_chars is_digit (String c ds) = true -> all_chars is_digit fs = true ->
  is_digit b = false -> Ascii.eqb b "." = false ->
  match_number (String c ds ++ fraction_text fs ++ String b rest)
  = Some (String c ds ++ fraction_text fs).
Proof.
  intros Hds Hfs Hb Hpoint.
  assert (span_digits (String c ds ++ fraction_text fs ++ String b rest)
          = (String c ds, fraction_text fs ++ String b rest)) as Hspan.
  { apply span_digits_app; [assumption|].
    unfold fraction_text. destruct (truthy fs); [reflexivity|].
    rewrite append_nil. exact Hb. }
  cbn [all_chars] in Hds. apply andb_prop in Hds as [Hc _].
  rewrite append_cons in *. unfold match_number; fold match_number.
  rewrite Hc, Hspan.
  unfold fraction_text. destruct fs as [|f fs]; cbn [truthy].
  - rewrite append_nil, Hpoint, append_empty_r.
    destruct (span_digits rest). reflexivity.
  - rewrite !append_cons, append_nil.
    rewrite (span_digits_app (String f fs) (String b rest) Hfs Hb).
    reflexivity.
Qed.

(** The number a price text is read as does not change when more text
    follows it after white space and a boundary character. *)
Lemma price_text_then_number token spaces body fs gap b rest :
  digit_free token = true -> all_chars is_space spaces = true ->
  grouped_digits body = true -> all_chars is_digit fs = true ->
  all_chars is_space gap = true -> boundary b = true ->
  match_number
    (trim (replace_noise 0 (price_text token spaces body fs ++ gap ++ String b rest)))
  = Some (remove_separators body ++ fraction_text fs).
Proof.
  intros Htok Hsp Hbody Hfs Hgap Hb.
  rewrite trim_no_space by apply replace_noise_no_space.
  pose proof Hbody as Hg. unfold grouped_digits in Hg.
  apply andb_prop in Hg as [Hhead Hchars].
  unfold price_text. rewrite !append_assoc.
  destruct (replace_noise_token token 0
              (spaces ++ body ++ fraction_text fs ++ gap ++ String b rest))
    as (T & -> & HT); [|lia|].
  { destruct spaces as [|c sp].
    - rewrite append_nil. destruct body as [|c body]; [discriminate|].
      rewrite append_cons. cbn [inert_head]. now rewrite Hhead.
    - cbn [all_chars] in Hsp. apply andb_prop in Hsp as [Hc _].
      rewrite append_cons. cbn [inert_head]. rewrite Hc. apply orb_true_r. }
  rewrite match_number_skip by auto.
  rewrite replace_noise_spaces, replace_noise_body by assumption.
  rewrite replace_noise_plain_app by now apply fraction_text_plain.
  rewrite replace_noise_spaces, replace_noise_boundary by assumption.
  destruct (remove_separators_head body Hbody) as (c & ds & Hrs & Hc).
  pose proof (remove_separators_digits body Hchars) as Hdigits.
  apply boundary_facts in Hb as (Hd & Hpoint & _).
  rewrite Hrs in *. now apply match_number_literal_then.
Qed.

(** X7.  Only the first number of a text counts: what follows a price text
    after white space and a character that ends the number (a hyphen, a
    slash, a letter other than k and s, ...) does not change the result, so
    a price range is read as its lower bound. *)
Theorem extractPrice_first_number token spaces body fs gap b rest :
  digit_free token = true -> all_chars is_space spaces = true ->
  grouped_digits body = true -> all_chars is_digit fs = true ->
  all_chars is_space gap = true -> boundary b = true ->
  extractPrice (price_text token spaces body fs ++ gap ++ String b rest)
  = extractPrice (price_text token spaces body fs).
Proof.
  intros Htok Hsp Hbody Hfs Hgap Hb. unfold extractPrice.
  rewrite price_text_then_number, price_text_number by assumption.
  rewrite price_text_truthy by assumption.
  assert (truthy (price_text token spaces body fs ++ gap ++ String b rest) = true)
    as ->; [|reflexivity].
  pose proof (price_text_truthy token spaces body fs Hbody) as Ht.
  destruct (price_text token spaces body fs); [discriminate Ht|reflexivity].
Qed.

Lemma extractPrice_first_number_witness :
  price_text "KSh" " " "1,200" "" ++ " " ++ String "-" " KSh 3,000"
  = "KSh 1,200 - KSh 3,000"
  /\ extractPrice (price_text "KSh" " " "1,200" "" ++ " " ++ String "-" " KSh 3,000")
     = extractPrice (price_text "KSh" " " "1,200" "").
Proof.
  split; [reflexivity|].
  apply (extractPrice_first_number "KSh" " " "1,200" "" " " "-" " KSh 3,000");
    reflexivity.
Defined.

(** ** Deduplication on arbitrary lists *)

Lemma removeDuplicates_seen_spec l : forall seen : gset string,
  sublist (removeDuplicates_seen seen l) l
  /\ NoDup (map dedupe_key (removeDuplicates_seen seen l))
  /\ (forall p, In p (removeDuplicates_seen seen l) -> dedupe_key p ∉ seen)
  /\ (forall p, In p l ->
        dedupe_key p ∈ seen
        \/ In (dedupe_key p) (map dedupe_key (removeDuplicates_seen seen l)))
  /\ (forall l1 p l2, l = (l1 ++ p :: l2)%list ->
        dedupe_key p ∉ seen -> ~ In (dedupe_key p) (map dedupe_key l1) ->
        In p (removeDuplicates_seen seen l)).
Proof.
  induction l as [|p l IH]; intros seen.
  - cbn. repeat split; try constructor; try tauto.
    intros [|] ? ? H; discriminate H.
  - cbn [removeDuplicates_seen]. case_bool_decide as Hseen.
    + destruct (IH seen) as (Hsub & Hnodup & Hout & Hin & Hfirst).
      split; [now constructor|]. split; [assumption|]. split; [assumption|].
      split.
      * intros q [<-|Hq]; [now left|auto].
      * intros [|x l1] q l2 Heq Hq Hl1; injection Heq as <- ->.
        -- contradiction.
        -- apply (Hfirst l1 q l2 eq_refl Hq). cbn in Hl1. tauto.
    + destruct (IH ({[dedupe_key p]} ∪ seen)) as (Hsub & Hnodup & Hout & Hin & Hfirst).
      split; [now constructor|]. split; [|split; [|split]].
      * cbn [map]. apply NoDup_cons_2; [|assumption].
        intros Hmem. apply list_elem_of_In, in_map_iff in Hmem as (q & Hk & Hq).
        apply Hout in Hq. rewrite Hk in Hq.
        apply Hq, elem_of_union. left. now apply elem_of_singleton.
      * intros q [<-|Hq]; [assumption|]. apply Hout in Hq.
        intros Hs. apply Hq, elem_of_union. now right.
      * intros q [<-|Hq]; [right; now left|].
        destruct (Hin q Hq) as [Hs|Hm]; [|right; now right].
        apply elem_of_union in Hs as [Hs|Hs]; [|now left].
        apply elem_of_singleton in Hs. right. left. now symmetry.
      * intros [|x l1] q l2 Heq Hq Hl1; injection Heq as <- ->; [now left|].
        right. apply (Hfirst l1 q l2 eq_refl).
        -- cbn in Hl1. intros Hu. apply elem_of_union in Hu as [Hu|Hu];
             [|contradiction].
           apply elem_of_singleton in Hu. apply Hl1. left. now symmetry.
        -- cbn in Hl1. tauto.
Qed.

(** X8.  On every list, [removeDuplicates] returns a sub-list in the order
    of the input, in which no key occurs twice; it keeps each record that
    no record with the same key precedes, and drops no key. *)
Theorem removeDuplicates_first_per_key (l : list Product) :
  sublist (removeDuplicates l) l
  /\ NoDup (map dedupe_key (removeDuplicates l))
  /\ (forall l1 p l2, l = (l1 ++ p :: l2)%list ->
        ~ In (dedupe_key p) (map dedupe_key l1) -> In p (removeDuplicates l))
  /\ (forall p, In p l -> In (dedupe_key p) (map dedupe_key (removeDuplicates l))).
Proof.
  destruct (removeDuplicates_seen_spec l ∅) as (Hsub & Hnodup & _ & Hin & Hfirst).
  split; [assumption|]. split; [assumption|]. split.
  - intros l1 p l2 Heq Hl1. apply (Hfirst l1 p l2 Heq); [set_solver|assumption].
  - intros p Hp. destruct (Hin p Hp) as [H|H]; [set_solver|assumption].
Qed.

Lemma removeDuplicates_first_per_key_witness :
  In kilimall_record (removeDuplicates [kilimall_record; jumia_record; kilimall_record])
  /\ In (dedupe_key jumia_record)
       (map dedupe_key
          (removeDuplicates [kilimall_record; jumia_record; kilimall_record])).
Proof.
  destruct (removeDuplicates_first_per_key
              [kilimall_record; jumia_record; kilimall_record])
    as (_ & _ & Hfirst & Hin).
  split.
  - apply (Hfirst [] kilimall_record [jumia_record; kilimall_record] eq_refl).
    intros [].
  - apply Hin. right. left. reflexivity.
Defined.

Lemma removeDuplicates_seen_fixed l : forall seen : gset string,
  NoDup (map dedupe_key l) -> (forall p, In p l -> dedupe_key p ∉ seen) ->
  removeDuplicates_seen seen l = l.
Proof.
  induction l as [|p l IH]; intros seen Hnodup Hseen; [reflexivity|].
  cbn [map] in Hnodup. apply NoDup_cons in Hnodup as [Hp Hnodup].
  cbn [removeDuplicates_seen]. case_bool_decide as Hk.
  - exfalso. apply (Hseen p); [now left|assumption].
  - f_equal. apply IH; [assumption|].
    intros q Hq. apply not_elem_of_union. split; [|apply Hseen; now right].
    intros Heq. apply elem_of_singleton in Heq. apply Hp.
    rewrite <- Heq. apply list_elem_of_In, in_map, Hq.
Qed.

(** X9.  Deduplicating twice is deduplicating once. *)
Theorem removeDuplicates_idempotent (l : list Product) :
  removeDuplicates (removeDuplicates l) = removeDuplicates l.
Proof.
  destruct (removeDuplicates_seen_spec l ∅) as (_ & Hnodup & _).
  apply removeDuplicates_seen_fixed; [assumption|]. intros p _. set_solver.
Qed.

(** X10.  The key is the text name-price-shop, so a record whose shop name
    starts with a number and a hyphen has the key of the record that
    carries them at the end of its name and as its price: the second of
    the two is dropped though the identities differ. *)
Theorem removeDuplicates_key_collision (a b : Product) :
  name b = name a ++ "-" ++ Number_toString (currentPrice a) ->
  shop a = Number_toString (currentPrice b) ++ "-" ++ shop b ->
  dedupe_key a = dedupe_key b /\ removeDuplicates [a; b] = [a].
Proof.
  intros Hn Hs.
  assert (dedupe_key a = dedupe_key b) as Hk.
  { unfold dedupe_key. rewrite Hn, Hs, !append_assoc. reflexivity. }
  split; [assumption|].
  unfold removeDuplicates. cbn [removeDuplicates_seen].
  rewrite bool_decide_eq_false_2 by set_solver.
  rewrite <- Hk. rewrite bool_decide_eq_true_2 by set_solver. reflexivity.
Qed.

Lemma removeDuplicates_key_collision_witness :
  same_identity case_in_store case_1500 = false
  /\ dedupe_key case_in_store = dedupe_key case_1500
  /\ removeDuplicates [case_in_store; case_1500] = [case_in_store].
Proof.
  split; [reflexivity|].
  apply (removeDuplicates_key_collision case_in_store case_1500); reflexivity.
Defined.

(** ** Sorting *)

Lemma sort_insert_priced q x l :
  List.filter (priced q) (sort_insert compare_price x l)
  = List.filter (priced q) (x :: l).
Proof.
  induction l as [|y l IH]; [reflexivity|].
  cbn [sort_insert]. destruct (Qle_bool (compare_price x y) 0) eqn:E;
    [reflexivity|].
  cbn [List.filter] in *. rewrite IH.
  destruct (priced q x) eqn:Hx, (priced q y) eqn:Hy; try reflexivity.
  exfalso. unfold priced in Hx, Hy. apply Qeq_bool_iff in Hx, Hy.
  assert (Qle_bool (compare_price x y) 0 = true) as E'; [|congruence].
  apply compare_price_le. unfold price_le. lra.
Qed.

Lemma sort_priced q l :
  List.filter (priced q) (sort compare_price l) = List.filter (priced q) l.
Proof.
  induction l as [|x l IH]; [reflexivity|].
  cbn [sort]. rewrite sort_insert_priced. cbn [List.filter]. now rewrite IH.
Qed.

Lemma sort_sorted_fixed l :
  StronglySorted price_le l -> sort compare_price l = l.
Proof.
  induction 1 as [|x l Hl IH Hx]; [reflexivity|].
  cbn [sort]. rewrite IH. destruct l as [|y l]; [reflexivity|].
  cbn [sort_insert]. inversion Hx as [|? ? Hxy _]; subst.
  apply compare_price_le in Hxy. now rewrite Hxy.
Qed.

(** X11.  The sort of [main] is stable and settled: the items of one price
    come out in the order in which they were collected, and sorting the
    sorted list changes nothing. *)
Theorem sort_by_price_stable :
  (forall q w s,
      List.filter (priced q) (items (fst (main w s)))
      = List.filter (priced q) (removeDuplicates (collected w s)))
  /\ (forall l, sort compare_price (sort compare_price l) = sort compare_price l).
Proof.
  split.
  - intros q w s. rewrite main_items. apply sort_priced.
  - intros l. apply sort_sorted_fixed, sort_sorted.
Qed.

(** ** The artifact *)

Lemma main_items_Forall (P : Product -> Prop) w s :
  (forall p, scraped_from w SHOPS p -> P p) ->
  Forall P (items (fst (main w s))).
Proof.
  intros H. rewrite main_items.
  apply sort_Forall, removeDuplicates_seen_Forall.
  eapply Forall_impl; [apply collected_scraped|exact H].
Qed.

Lemma main_totalItems w s :
  totalItems (fst (main w s)) = length (items (fst (main w s))).
Proof.
  unfold main, bind, saveResults, new_Date, ret.
  destruct (scrapeShops w SHOPS [] s) as [allProducts s1]. reflexivity.
Qed.

Lemma or_else_truthy a b : truthy b = true -> truthy (or_else a b) = true.
Proof. unfold or_else. intros H. now destruct (truthy a) eqn:E. Qed.

Lemma prefix_self_append k b : String.prefix k (k ++ b) = true.
Proof.
  induction k as [|c k IH]; [now destruct b|].
  rewrite append_cons. cbn [String.prefix].
  destruct (Ascii.ascii_dec c c); [assumption|contradiction].
Qed.

Lemma extractJumiaProduct_link w e shopName s r s' :
  extractJumiaProduct w e shopName s = (Some r, s') ->
  (url r = "" \/ String.prefix "https://www.jumia.co.ke" (url r) = true)
  /\ (100 <= originalPrice r)%Q.
Proof.
  intros H. pose proof (extractJumiaProduct_fields _ _ _ _ _ _ H) as Hf.
  cbv zeta in Hf. destruct Hf as (_ & _ & _ & Hc & Ht & Ho & _).
  split.
  - clear Hc Ht Ho. revert H. unfold extractJumiaProduct.
    destruct (negb _ || negb _); [run_monad; discriminate|].
    destruct (extractPrice (trim (text_prc e))); [|run_monad; discriminate].
    destruct (if truthy_opt _ then _ else _); run_monad; [|discriminate].
    intros [= <- _]. cbn [url].
    destruct (attr_truthy (attr_a_href e)); [right|now left].
    apply prefix_self_append.
  - destruct (extractPrice (trim (text_old e))) as [o|] eqn:Hs; cbn [truthy_opt] in Ho.
    + destruct (truthy_num o) eqn:Hto.
      * injection Ho as ->. now apply (extractPrice_truthy _ _ Hs).
      * injection Ho as ->. now apply (extractPrice_truthy _ _ Hc).
    + injection Ho as ->. now apply (extractPrice_truthy _ _ Hc).
Qed.

Lemma plain_product_name w nm priceText shopName s r s' :
  plain_product w nm priceText shopName s = (Some r, s') -> truthy nm = true.
Proof.
  unfold plain_product. destruct (truthy nm); [reflexivity|].
  cbn [negb orb]. run_monad. discriminate.
Qed.

Lemma truthy_nonempty a : truthy a = true -> a <> "".
Proof. now destruct a. Qed.

Lemma extractProductInfo_record w e shopName s r s' :
  extractProductInfo w e shopName s = (Some r, s') ->
  shop r = shopName /\ name r <> ""
  /\ category r = determineCategory (name r)
  /\ (100 <= currentPrice r)%Q /\ (100 <= originalPrice r)%Q
  /\ (url r = "" \/ String.prefix "https://www.jumia.co.ke" (url r) = true)
  /\ (includes shopName "Jumia" = false ->
      discount r = "" /\ url r = "" /\ imageUrl r = ""
      /\ originalPrice r = currentPrice r).
Proof.
  unfold extractProductInfo. intros H.
  destruct (includes shopName "Jumia").
  - pose proof (extractJumiaProduct_link _ _ _ _ _ _ H) as (Hu & Ho).
    apply extractJumiaProduct_fields in H. cbv zeta in H.
    destruct H as (Hs & Hn & Hcat & Hc & Ht & _).
    split; [assumption|]. split.
    { rewrite Hn. now apply truthy_nonempty, or_else_truthy. }
    split; [assumption|]. split; [now apply (extractPrice_truthy _ _ Hc)|].
    split; [assumption|]. split; [assumption|discriminate].
  - assert (exists nm priceText,
               plain_product w nm priceText shopName s = (Some r, s')) as (nm & pt & Hp).
    { destruct (includes shopName "Kilimall"); eauto. }
    pose proof (plain_product_name _ _ _ _ _ _ _ Hp) as Hnm.
    apply plain_product_fields in Hp.
    destruct Hp as (Hn & Hs & Hc & Ht & Hcat & Ho & Hd & Hu & Hi).
    pose proof (extractPrice_truthy _ _ Hc Ht) as Hfloor.
    split; [assumption|]. split; [rewrite Hn; now apply truthy_nonempty|].
    split; [now rewrite Hn|]. split; [assumption|].
    split; [now rewrite Ho|]. split; [now left|]. auto.
Qed.

(** X12.  Every item of the artifact has a current price from 100 to 10000
    and an original price of at least 100: a price of 0, which the parser
    can return, never reaches the artifact. *)
Theorem artifact_prices_above_floor w s :
  Forall priced_above_floor (items (fst (main w s))).
Proof.
  apply main_items_Forall. intros p (sh & _ & Ha & e & s0 & s1 & H).
  apply extractProductInfo_record in H as (_ & _ & _ & Hc & Ho & _).
  apply accepted_retained in Ha as [[_ Hmax] _].
  split; [assumption|]. split; assumption.
Qed.

(** X13.  Every item of the artifact carries the classification of its own
    name, which is not empty and not the placeholder "Unknown Product"; its
    shop is a configured shop; its url is empty or starts with the Jumia
    origin; and a Kilimall item has no discount, url or image and equal
    prices. *)
Theorem artifact_items_well_formed w s :
  Forall well_formed (items (fst (main w s))).
Proof.
  apply main_items_Forall. intros p (sh & Hin & Ha & e & s0 & s1 & H).
  apply extractProductInfo_record in H as (Hs & Hn & Hcat & _ & _ & Hu & Hplain).
  apply accepted_retained in Ha as [[Hc _] _].
  unfold well_formed. split; [assumption|]. split; [assumption|]. split.
  { intros Hname. rewrite Hcat, Hname in Hc. destruct Hc; discriminate. }
  split; [rewrite Hs; now apply in_map|]. split; [assumption|].
  intros Hk. apply Hplain. rewrite <- Hs, Hk. reflexivity.
Qed.

Lemma artifact_keys_NoDup w s :
  NoDup (map dedupe_key (items (fst (main w s)))).
Proof.
  rewrite main_items.
  apply (proj1 (NoDup_Permutation_proper _ _
                  (Permutation_map dedupe_key
                     (sort_Permutation compare_price _)))).
  apply (removeDuplicates_seen_spec (collected w s) ∅).
Qed.

(** X14.  The artifact never lists one identity twice: two positions of
    its items that agree on name, current price and shop are the same
    position. *)
Theorem artifact_identities_distinct w s i j p q :
  nth_error (items (fst (main w s))) i = Some p ->
  nth_error (items (fst (main w s))) j = Some q ->
  same_identity p q = true -> i = j.
Proof.
  intros Hi Hj Hsame.
  assert (Forall key_faithful (items (fst (main w s)))) as Hfaithful
    by (apply main_items_Forall, scraped_from_faithful).
  rewrite Forall_forall in Hfaithful.
  assert (key_faithful p /\ key_faithful q) as [Hp Hq].
  { split; apply Hfaithful, list_elem_of_In; eapply nth_error_In; eassumption. }
  apply (dedupe_key_identity p q Hp Hq) in Hsame.
  pose proof (artifact_keys_NoDup w s) as Hnodup.
  apply NoDup_ListNoDup in Hnodup.
  rewrite NoDup_nth_error in Hnodup. apply Hnodup.
  - rewrite length_map. apply nth_error_Some. now rewrite Hi.
  - rewrite !nth_error_map, Hi, Hj. cbn. now rewrite Hsame.
Qed.

Lemma artifact_identities_distinct_witness :
  nth_error (items (fst (main flaky initial))) 1 = Some flaky_kilimall_item
  /\ same_identity flaky_kilimall_item flaky_kilimall_item = true
  /\ 1%nat = 1%nat.
Proof.
  split; [reflexivity|]. split; [reflexivity|].
  apply (artifact_identities_distinct flaky initial 1 1
           flaky_kilimall_item flaky_kilimall_item); reflexivity.
Defined.

Lemma retained_counts l :
  Forall retained l ->
  (length (List.filter (has_category "laptop") l)
   + length (List.filter (has_category "phone") l))%nat = length l.
Proof.
  induction 1 as [|p l [Hc _] _ IH]; [reflexivity|].
  cbn [List.filter].
  assert (has_category "laptop" p = true /\ has_category "phone" p = false
          \/ has_category "laptop" p = false /\ has_category "phone" p = true)
    as [[-> ->]|[-> ->]]
    by (unfold has_category; destruct Hc as [->| ->]; [right|left]; split; reflexivity);
    cbn [length]; lia.
Qed.

(** X15.  The two counts of the report add up to the total: on the
    artifact of [main], [calculateStats] finds as many laptop and phone
    deals together as [totalItems] says. *)
Theorem stats_counts_add_up w s :
  (laptopDeals (calculateStats (items (fst (main w s))))
   + phoneDeals (calculateStats (items (fst (main w s)))))%nat
  = totalItems (fst (main w s)).
Proof.
  rewrite main_totalItems. unfold calculateStats.
  destruct (discount_totals _ 0 0) as [totalDiscount discountCount].
  cbn [laptopDeals phoneDeals].
  apply retained_counts, main_items_Forall. intros p.
  apply scraped_from_retained.
Qed.

(** ** Timestamps *)

Lemma plain_product_clock w nm priceText shopName s :
  match plain_product w nm priceText shopName s with
  | (Some p, s') =>
      timestamp p = date_now w (clock_reads s)
      /\ clock_reads s' = S (clock_reads s)
  | (None, s') => clock_reads s' = clock_reads s
  end.
Proof.
  unfold plain_product.
  destruct (negb (truthy nm) || negb (truthy_opt (extractPrice priceText)));
    [reflexivity|].
  destruct (extractPrice priceText); run_monad; cbn; auto.
Qed.

Lemma extractProductInfo_clock w e shopName s :
  match extractProductInfo w e shopName s with
  | (Some p, s') =>
      timestamp p = date_now w (clock_reads s)
      /\ clock_reads s' = S (clock_reads s)
  | (None, s') => clock_reads s' = clock_reads s
  end.
Proof.
  unfold extractProductInfo.
  destruct (includes shopName "Jumia").
  - unfold extractJumiaProduct.
    destruct (negb _ || negb _); [reflexivity|].
    destruct (extractPrice (trim (text_prc e))); [|reflexivity].
    destruct (if truthy_opt _ then _ else _); run_monad; cbn; auto.
  - destruct (includes shopName "Kilimall"); apply plain_product_clock.
Qed.

Lemma stamped_widen w lo hi lo' hi' p :
  (lo' <= lo)%nat -> (hi <= hi')%nat -> stamped w lo hi p -> stamped w lo' hi' p.
Proof. intros Hlo Hhi (i & Hi & Ht). exists i. split; [lia|assumption]. Qed.

Lemma each_element_clock w shopName elements : forall products s,
  exists new,
    fst (each_element w shopName elements products s) = (products ++ new)%list
    /\ (clock_reads s <= clock_reads (snd (each_element w shopName elements products s)))%nat
    /\ Forall (stamped w (clock_reads s)
                 (clock_reads (snd (each_element w shopName elements products s))))
         new.
Proof.
  induction elements as [|e rest IH]; intros products s.
  - exists []. cbn. rewrite app_nil_r. auto.
  - cbn [each_element]. unfold bind.
    pose proof (extractProductInfo_clock w e shopName s) as Hclock.
    destruct (extractProductInfo w e shopName s) as [[p|] s1].
    + destruct Hclock as (Ht & Hc).
      destruct (accepted (Some p)).
      * destruct (IH (products ++ [p])%list s1) as (new & Hf & Hle & Hall).
        exists (p :: new). rewrite Hf, <- app_assoc. cbn [app].
        split; [reflexivity|]. split; [lia|].
        constructor.
        -- exists (clock_reads s). split; [lia|assumption].
        -- eapply Forall_impl; [exact Hall|].
           intros q. apply stamped_widen; lia.
      * destruct (IH products s1) as (new & Hf & Hle & Hall).
        exists new. split; [assumption|]. split; [lia|].
        eapply Forall_impl; [exact Hall|].
        intros q. apply stamped_widen; lia.
    + destruct (IH products s1) as (new & Hf & Hle & Hall).
      exists new. rewrite Hclock in *. auto.
Qed.

Lemma scrapePage_clock w url shopName s :
  (clock_reads s <= clock_reads (snd (scrapePage w url shopName s)))%nat
  /\ Forall (stamped w (clock_reads s)
               (clock_reads (snd (scrapePage w url shopName s))))
       (fst (scrapePage w url shopName s)).
Proof.
  unfold scrapePage, bind, fetch.
  destruct (http_get w url) as [|page]; [cbn; auto|].
  destruct (first_matching page productSelectors) as [els|]; [|cbn; auto].
  match goal with |- context [each_element ?w ?n ?l ?p ?s] =>
    destruct (each_element_clock w n l p s) as (new & Hf & Hle & Hall) end.
  rewrite Hf. cbn [clock_reads app] in *. auto.
Qed.

Lemma scrapePages_clock w shopName urls : forall products s,
  exists new,
    fst (scrapePages w shopName urls products s) = (products ++ new)%list
    /\ (clock_reads s <= clock_reads (snd (scrapePages w shopName urls products s)))%nat
    /\ Forall (stamped w (clock_reads s)
                 (clock_reads (snd (scrapePages w shopName urls products s))))
         new.
Proof.
  induction urls as [|u rest IH]; intros products s.
  - exists []. cbn. rewrite app_nil_r. auto.
  - cbn [scrapePages]. unfold bind.
    destruct (scrapePage_clock w u shopName s) as (Hle & Hall).
    destruct (scrapePage w u shopName s) as [pageProducts s1].
    cbn [fst snd] in Hle, Hall.
    destruct (IH (products ++ pageProducts)%list s1) as (new & Hf & Hle' & Hall').
    exists (pageProducts ++ new)%list. rewrite Hf, <- app_assoc.
    split; [reflexivity|]. split; [lia|].
    apply Forall_app. split.
    + eapply Forall_impl; [exact Hall|]. intros q. apply stamped_widen; lia.
    + eapply Forall_impl; [exact Hall'|]. intros q. apply stamped_widen; lia.
Qed.

Lemma scrapeShop_clock w sh s :
  (clock_reads s <= clock_reads (snd (scrapeShop w sh s)))%nat
  /\ Forall (stamped w (clock_reads s) (clock_reads (snd (scrapeShop w sh s))))
       (fst (scrapeShop w sh s)).
Proof.
  unfold scrapeShop, bind.
  destruct (scrapePage_clock w (flashSalesUrl sh) (shop_name sh) s) as (Hle & Hall).
  destruct (scrapePage w (flashSalesUrl sh) (shop_name sh) s) as [flash s1].
  cbn [fst snd] in Hle, Hall.
  destruct (scrapePages_clock w (shop_name sh) (searchUrls sh) ([] ++ flash)%list s1)
    as (new & Hf & Hle' & Hall').
  rewrite Hf. cbn [app] in *. split; [lia|].
  apply Forall_app. split.
  - eapply Forall_impl; [exact Hall|]. intros q. apply stamped_widen; lia.
  - eapply Forall_impl; [exact Hall'|]. intros q. apply stamped_widen; lia.
Qed.

Lemma scrapeShops_clock w shops : forall allProducts s,
  exists new,
    fst (scrapeShops w shops allProducts s) = (allProducts ++ new)%list
    /\ (clock_reads s <= clock_reads (snd (scrapeShops w shops allProducts s)))%nat
    /\ Forall (stamped w (clock_reads s)
                 (clock_reads (snd (scrapeShops w shops allProducts s))))
         new.
Proof.
  induction shops as [|sh rest IH]; intros allProducts s.
  - exists []. cbn. rewrite app_nil_r. auto.
  - cbn [scrapeShops]. unfold bind.
    destruct (scrapeShop_clock w sh s) as (Hle & Hall).
    destruct (scrapeShop w sh s) as [products s1].
    cbn [fst snd] in Hle, Hall.
    destruct (IH (allProducts ++ products)%list s1) as (new & Hf & Hle' & Hall').
    exists (products ++ new)%list. rewrite Hf, <- app_assoc.
    split; [reflexivity|]. split; [lia|].
    apply Forall_app. split.
    + eapply Forall_impl; [exact Hall|]. intros q. apply stamped_widen; lia.
    + eapply Forall_impl; [exact Hall'|]. intros q. apply stamped_widen; lia.
Qed.

(** X16.  The artifact is stamped last: its timestamp is a clock reading
    made after the reading that stamps any of its items, and it is the
    last reading of the run. *)
Theorem artifact_stamped_last w s :
  exists k,
    (clock_reads s <= k)%nat
    /\ data_timestamp (fst (main w s)) = date_now w k
    /\ clock_reads (snd (main w s)) = S k
    /\ Forall (stamped w (clock_reads s) k) (items (fst (main w s))).
Proof.
  rewrite main_items. unfold collected.
  unfold main, bind, saveResults, new_Date, ret.
  destruct (scrapeShops_clock w SHOPS [] s) as (new & Hf & Hle & Hall).
  destruct (scrapeShops w SHOPS [] s) as [allProducts s1].
  cbn [fst snd app] in *. subst new.
  exists (clock_reads s1). split; [assumption|].
  split; [reflexivity|]. split; [reflexivity|].
  now apply sort_Forall, removeDuplicates_seen_Forall.
Qed.

(** ** The report reads back the discount *)














(** ** Requests of a run *)

(** X18.  Whatever the network answers, a run requests the six configured
    pages once each, shop by shop, flash-sale page first, and nothing
    else: no page is tried again and no failure cuts the sequence short. *)
Theorem main_requests w s :
  requested (snd (main w s))
  = (requested s
     ++ [ "https://www.jumia.co.ke/mlp-flash-sales/";
          "https://www.jumia.co.ke/laptops/";
          "https://www.jumia.co.ke/smartphones/";
          "https://www.kilimall.co.ke/new-flash-sale.html";
          "https://www.kilimall.co.ke/kilimall-flash-sale-laptop-c-10000007.html";
          "https://www.kilimall.co.ke/kilimall-flash-sale-phone-c-10000001.html" ])%list.
Proof.
  destruct (scrapeShops_spec w SHOPS [] s) as (new & _ & _ & Hr).
  unfold main, bind, saveResults, new_Date, ret.
  destruct (scrapeShops w SHOPS [] s) as [allProducts s1].
  cbn [snd requested] in *. exact Hr.
Qed.

(** ** Discounts of items *)

Lemma percentage_nonempty z : Z_toString z ++ "%" <> "".
Proof. destruct (Z_toString z); discriminate. Qed.

Lemma or_else_nonempty a b : b <> "" -> or_else a b <> "".
Proof.
  unfold or_else. destruct a as [|c a]; cbn [truthy]; [auto|discriminate].
Qed.

Lemma extractProductInfo_discount w e shopName s r s' :
  extractProductInfo w e shopName s = (Some r, s') ->
  (currentPrice r < originalPrice r)%Q -> discount r <> "".
Proof.
  unfold extractProductInfo. intros H Hlt.
  destruct (includes shopName "Jumia").
  - apply extractJumiaProduct_fields in H. cbv zeta in H.
    destruct H as (_ & _ & _ & Hc & Ht & _ & Hd).
    pose proof (extractPrice_truthy _ _ Hc Ht) as Hfloor.
    rewrite Hd. apply or_else_nonempty. unfold calculateDiscount.
    rewrite Ht.
    assert (truthy_num (originalPrice r) = true) as ->
      by (apply truthy_num_iff; lra).
    assert (Qle_bool (originalPrice r) (currentPrice r) = false) as ->.
    { destruct (Qle_bool _ _) eqn:E; [|reflexivity].
      apply Qle_bool_iff in E. lra. }
    apply percentage_nonempty.
  - assert (originalPrice r = currentPrice r) as Heq.
    { destruct (includes shopName "Kilimall");
        [unfold extractKilimallProduct in H|unfold extractGenericProduct in H];
        apply plain_product_fields in H; tauto. }
    rewrite Heq in Hlt. lra.
Qed.

(** X19.  An item whose original price is above its current price always
    shows a discount: the scraped badge, or else the computed
    percentage. *)
Theorem artifact_reduced_items_show_discount w s :
  Forall (fun p => (currentPrice p < originalPrice p)%Q -> discount p <> "")
    (items (fst (main w s))).
Proof.
  apply main_items_Forall. intros p (sh & _ & _ & e & s0 & s1 & H).
  now apply (extractProductInfo_discount w e (shop_name sh) s0 p s1).
Qed.

Lemma artifact_reduced_items_show_discount_witness :
  nth_error (items (fst (main flaky initial))) 2 = Some flaky_jumia_item
  /\ discount flaky_jumia_item <> "".
Proof.
  split; [reflexivity|].
  pose proof (artifact_reduced_items_show_discount flaky initial) as H.
  rewrite Forall_forall in H.
  apply (H flaky_jumia_item).
  - apply list_elem_of_In. apply (nth_error_In _ 2). reflexivity.
  - reflexivity.
Defined.
